(** * Learning-rate schedulers of [nerfstudio/engine/schedulers.py]

    A shallow embedding of the step-to-multiplier functions of the scheduler
    classes, and the properties of the specification proved about them.

    Conventions of the embedding.
    - Step counts ([step], [warm_up_end], [warmup_steps], [max_steps],
      milestones) are Python [int]s: unbounded integers, here [Z].
    - Python [float] and [np.float64] values are read as real numbers, [R]:
      [np.exp], [np.log], [np.sin], [np.cos] and [np.pi] are [exp], [ln],
      [sin], [cos] and [PI].  Rounding is not modelled, and the model says
      nothing about the non-finite values (nan, inf) NumPy produces outside
      the domain of the real functions (logarithm of a rate that is not
      positive, NumPy division by a zero rate).
    - Faults are explicit: the true division of two Python numbers raises
      [ZeroDivisionError] on a zero divisor, a division whose dividend is an
      [np.float64] does not raise. *)

From Stdlib Require Import ZArith List Lia Bool Sorted Permutation.
From Stdlib Require Import Reals Lra.
From Stdlib Require PrimFloat Uint63.
Import ListNotations.

Open Scope Z_scope.

(** ** Results of a schedule evaluation *)

Inductive result (A : Type) : Type :=
| Ok (a : A)
| ZeroDivisionError.

Arguments Ok {A} a.
Arguments ZeroDivisionError {A}.

Definition bind {A B : Type} (r : result A) (k : A -> result B) : result B :=
  match r with
  | Ok a => k a
  | ZeroDivisionError => ZeroDivisionError
  end.

Notation "x <- r ;; k" := (bind r (fun x => k))
  (at level 61, r at next level, right associativity).

(** ** Python and NumPy primitives used by the schedulers *)

(** [a / b] on two Python [int]s. *)
Definition int_truediv (a b : Z) : result R :=
  if b =? 0 then ZeroDivisionError else Ok (IZR a / IZR b)%R.

(** [a / b] on Python [float]s with an [int] or [float] divisor. *)
Definition float_truediv (a b : R) : result R :=
  if Req_EM_T b 0 then ZeroDivisionError else Ok (a / b)%R.

(** [np.clip(x, lo, hi)], that is [minimum(maximum(x, lo), hi)]. *)
Definition clip (x lo hi : R) : R := Rmin (Rmax x lo) hi.

(** The loop of [np.searchsorted(a, key, side="left")] on one key: a binary
    search on the index interval from [min_idx] to [max_idx].  The interval
    halves at every turn, so [max_idx - min_idx] turns are enough
    ([binsearch_left_fuel]). *)
Fixpoint binsearch_left (fuel : nat) (a : list Z) (key : Z)
    (min_idx max_idx : nat) : nat :=
  match fuel with
  | O => min_idx
  | S fuel' =>
      if (min_idx <? max_idx)%nat then
        let mid_idx := (min_idx + (max_idx - min_idx) / 2)%nat in
        let mid_val := nth mid_idx a 0 in
        if mid_val <? key
        then binsearch_left fuel' a key (mid_idx + 1)%nat max_idx
        else binsearch_left fuel' a key min_idx mid_idx
      else min_idx
  end.

Definition searchsorted_left (a : list Z) (key : Z) : nat :=
  binsearch_left (length a) a key 0%nat (length a).

(** The number of elements of [l] strictly less than [x], and the number of
    elements less than or equal to [x]. *)
Definition count_lt (l : list Z) (x : Z) : nat :=
  length (filter (fun m => m <? x) l).

Definition count_le (l : list Z) (x : Z) : nat :=
  length (filter (fun m => m <=? x) l).

(** The number of elements of [l] from [lo] to [hi], both included. *)
Definition count_between (l : list Z) (lo hi : Z) : nat :=
  length (filter (fun m => (lo <=? m) && (m <=? hi)) l).

(** [torch.optim.lr_scheduler.LambdaLR]: the learning rate at [step] is the
    base rate times [lr_lambda step]. *)
Definition LambdaLR (base_lr : R) (lr_lambda : Z -> result R) (step : Z)
    : result R :=
  factor <- lr_lambda step ;; Ok (base_lr * factor)%R.

(** ** MultiStepWarmupScheduler *)

Module MultiStepWarmupScheduler.

Record MultiStepWarmupSchedulerConfig : Type := {
  warm_up_end : Z;
  milestones : list Z;
  gamma : R
}.

Definition default : MultiStepWarmupSchedulerConfig :=
  {| warm_up_end := 5000;
     milestones := [300000; 400000; 500000];
     gamma := 0.33 |}.

Definition func (config : MultiStepWarmupSchedulerConfig) (step : Z)
    : result R :=
  if step <? warm_up_end config then
    int_truediv step (warm_up_end config)
  else
    let index := searchsorted_left (milestones config) step in
    Ok (gamma config ^ index)%R.

Definition get_scheduler (config : MultiStepWarmupSchedulerConfig)
    (lr_init : R) : Z -> result R :=
  LambdaLR lr_init (func config).

End MultiStepWarmupScheduler.

(** ** MultiStepScheduler *)

(** [torch.optim.lr_scheduler.MultiStepLR], the scheduler the source builds.
    It keeps the milestones as a [Counter]; every call of [step()] adds one
    to [last_epoch] and, when [last_epoch] is a milestone, multiplies the
    current rate by [gamma ** milestones[last_epoch]]. *)
Definition counter (milestones : list Z) (epoch : Z) : nat :=
  count_occ Z.eq_dec milestones epoch.

Definition MultiStepLR_get_lr (milestones : list Z) (gamma : R)
    (last_epoch : Z) (lr : R) : R :=
  if (counter milestones last_epoch =? 0)%nat then lr
  else (lr * gamma ^ counter milestones last_epoch)%R.

(** The rate after the construction (which runs [step()] once, leaving
    [last_epoch = 0]) and [n] further calls of [step()]. *)
Fixpoint MultiStepLR_steps (base_lr : R) (milestones : list Z) (gamma : R)
    (n : nat) : R :=
  match n with
  | O => MultiStepLR_get_lr milestones gamma 0 base_lr
  | S n' =>
      MultiStepLR_get_lr milestones gamma (Z.of_nat (S n'))
        (MultiStepLR_steps base_lr milestones gamma n')
  end.

Definition MultiStepLR (base_lr : R) (milestones : list Z) (gamma : R)
    (step : Z) : R :=
  MultiStepLR_steps base_lr milestones gamma (Z.to_nat step).

Module MultiStepScheduler.

Record MultiStepSchedulerConfig : Type := {
  max_steps : Z;
  gamma : R;
  milestones : list Z
}.

Definition default : MultiStepSchedulerConfig :=
  {| max_steps := 1000000;
     gamma := 0.33;
     milestones := [500000; 750000; 900000] |}.

Definition get_scheduler (config : MultiStepSchedulerConfig) (lr_init : R)
    : Z -> R :=
  MultiStepLR lr_init (milestones config) (gamma config).

End MultiStepScheduler.

(** ** ExponentialDecayScheduler *)

Module ExponentialDecayScheduler.

Inductive Ramp : Type := linear | cosine.

Record ExponentialDecaySchedulerConfig : Type := {
  lr_pre_warmup : R;
  lr_final : option R;
  warmup_steps : Z;
  max_steps : Z;
  ramp : Ramp
}.

Definition default : ExponentialDecaySchedulerConfig :=
  {| lr_pre_warmup := 1e-8;
     lr_final := None;
     warmup_steps := 0;
     max_steps := 100000;
     ramp := cosine |}.

(** The configuration of the specification's example (used with
    [lr_init = 0.01]), and one whose warmup length equals its [max_steps]. *)
Definition example_config : ExponentialDecaySchedulerConfig :=
  {| lr_pre_warmup := 1e-8;
     lr_final := Some 0.0001%R;
     warmup_steps := 100;
     max_steps := 1000;
     ramp := linear |}.

Definition degenerate_config : ExponentialDecaySchedulerConfig :=
  {| lr_pre_warmup := 1e-8;
     lr_final := None;
     warmup_steps := 100;
     max_steps := 100;
     ramp := cosine |}.

(** A configuration whose [max_steps] is less than its warmup length. *)
Definition inverted_config : ExponentialDecaySchedulerConfig :=
  {| lr_pre_warmup := 1e-8;
     lr_final := Some 0.0001%R;
     warmup_steps := 1000;
     max_steps := 100;
     ramp := cosine |}.

(** The local [lr_final] of [get_scheduler]. *)
Definition final_lr (config : ExponentialDecaySchedulerConfig) (lr_init : R)
    : R :=
  match lr_final config with
  | None => lr_init
  | Some v => v
  end.

(** The test of the warmup branch. *)
Definition in_warmup (config : ExponentialDecaySchedulerConfig) (step : Z)
    : bool :=
  step <? warmup_steps config.

(** The clamped progress [t] of the decay branch. *)
Definition decay_progress (config : ExponentialDecaySchedulerConfig)
    (step : Z) : result R :=
  t <- int_truediv (step - warmup_steps config)
                   (max_steps config - warmup_steps config) ;;
  Ok (clip t 0 1).

(** In the decay branch [np.log] is read as [ln], which is the logarithm on
    positive rates only: on a rate that is zero or negative NumPy gives
    [-inf] or nan, which [R] does not have, so what is proved of the values
    of this branch assumes positive rates.  The values are the exact ones;
    binary64 rounds them (see [Binary64.decay_multiplier]). *)
Definition func (config : ExponentialDecaySchedulerConfig) (lr_init : R)
    (step : Z) : result R :=
  let lr_final := final_lr config lr_init in
  if in_warmup config step then
    match ramp config with
    | cosine =>
        t <- int_truediv step (warmup_steps config) ;;
        let lr := (lr_pre_warmup config
                   + (lr_init - lr_pre_warmup config)
                     * sin (0.5 * PI * clip t 0 1))%R in
        Ok (lr / lr_init)%R
    | linear =>
        r <- float_truediv ((lr_init - lr_pre_warmup config) * IZR step)%R
                           (IZR (warmup_steps config)) ;;
        let lr := (lr_pre_warmup config + r)%R in
        float_truediv lr lr_init
    end
  else
    t <- decay_progress config step ;;
    let lr := exp (ln lr_init * (1 - t) + ln lr_final * t)%R in
    Ok (lr / lr_init)%R.

Definition get_scheduler (config : ExponentialDecaySchedulerConfig)
    (lr_init : R) : Z -> result R :=
  LambdaLR lr_init (func config lr_init).

End ExponentialDecayScheduler.

(** ** CosineDecayScheduler *)

Module CosineDecayScheduler.

Record CosineDecaySchedulerConfig : Type := {
  warm_up_end : Z;
  learning_rate_alpha : R;
  max_steps : Z
}.

Definition default : CosineDecaySchedulerConfig :=
  {| warm_up_end := 5000;
     learning_rate_alpha := 0.05;
     max_steps := 300000 |}.

(** The configuration with given field values. *)
Definition cosine_config (warm_up_end : Z) (learning_rate_alpha : R)
    (max_steps : Z) : CosineDecaySchedulerConfig :=
  {| warm_up_end := warm_up_end;
     learning_rate_alpha := learning_rate_alpha;
     max_steps := max_steps |}.

Definition func (config : CosineDecaySchedulerConfig) (step : Z)
    : result R :=
  if step <? warm_up_end config then
    int_truediv step (warm_up_end config)
  else
    let alpha := learning_rate_alpha config in
    progress <- int_truediv (step - warm_up_end config)
                            (max_steps config - warm_up_end config) ;;
    Ok ((cos (PI * progress) + 1.0) * 0.5 * (1 - alpha) + alpha)%R.

Definition get_scheduler (config : CosineDecaySchedulerConfig)
    (lr_init : R) : Z -> result R :=
  LambdaLR lr_init (func config).

End CosineDecayScheduler.

(** ** ExponentialSchedulerConfig *)

(** [x ** y] on Python floats for a base that is not negative: a zero base
    raises on a negative exponent.  (A negative base with a fractional
    exponent gives a complex number; the model does not cover it.)  The
    power is the exact one; binary64 rounds it (see [Binary64.ratio]). *)
Definition float_pow (x y : R) : result R :=
  if Rlt_dec 0 x then Ok (Rpower x y)
  else if Rlt_dec y 0 then ZeroDivisionError
  else if Req_EM_T y 0 then Ok 1%R
  else Ok 0%R.

(** [torch.optim.lr_scheduler.ExponentialLR]: every call of [step()] after
    the construction multiplies the current rate by [gamma].  The products
    here are exact; torch rounds each one in binary64 (see
    [Binary64.ExponentialLR_steps]). *)
Fixpoint ExponentialLR_steps (base_lr gamma : R) (n : nat) : R :=
  match n with
  | O => base_lr
  | S n' => (ExponentialLR_steps base_lr gamma n' * gamma)%R
  end.

Definition ExponentialLR (base_lr gamma : R) (step : Z) : R :=
  ExponentialLR_steps base_lr gamma (Z.to_nat step).

Module ExponentialScheduler.

Record ExponentialSchedulerConfig : Type := {
  decay_rate : R;
  max_steps : Z
}.

Definition default : ExponentialSchedulerConfig :=
  {| decay_rate := 0.1; max_steps := 1000000 |}.

(** The second argument [setup] passes to [ExponentialLR]. *)
Definition ratio (config : ExponentialSchedulerConfig) : result R :=
  e <- float_truediv 1.0 (IZR (max_steps config)) ;;
  float_pow (decay_rate config) e.

Definition setup (config : ExponentialSchedulerConfig) (lr_init : R)
    : result (Z -> R) :=
  gamma <- ratio config ;;
  Ok (ExponentialLR lr_init gamma).

End ExponentialScheduler.

(** ** NeuSScheduler *)

Module NeuSScheduler.

Record NeuSSchedulerConfig : Type := {
  warm_up_end : Z;
  learning_rate_alpha : R;
  max_steps : Z
}.

Definition default : NeuSSchedulerConfig :=
  {| warm_up_end := 5000;
     learning_rate_alpha := 0.05;
     max_steps := 300000 |}.

(** The [func] of [NeuSScheduler.__init__]. *)
Definition func (warm_up_end : Z) (learning_rate_alpha : R) (max_steps : Z)
    (step : Z) : result R :=
  if step <? warm_up_end then
    int_truediv step warm_up_end
  else
    let alpha := learning_rate_alpha in
    progress <- int_truediv (step - warm_up_end) (max_steps - warm_up_end) ;;
    Ok ((cos (PI * progress) + 1.0) * 0.5 * (1 - alpha) + alpha)%R.

Definition setup (config : NeuSSchedulerConfig) (lr_init : R)
    : Z -> result R :=
  LambdaLR lr_init
    (func (warm_up_end config) (learning_rate_alpha config)
          (max_steps config)).

End NeuSScheduler.

(** ** Binary64 evaluation

    The definitions above read floats as reals.  The ones below evaluate the
    arithmetic of two of the schedules in binary64, with the kernel's
    primitive floats, so that a value of the running code can be compared
    with the exact one.  The C library's [pow], [log] and [exp] are not
    primitives of binary64: they are parameters of the definitions, and
    [libm_pow], [libm_log] and [libm_exp] give their correctly rounded values
    at the arguments the lemmas evaluate (nan marks an argument outside the
    table). *)

Module Binary64.

Import PrimFloat.

(** The conversion of a Python [int] to a float, for [0 <= z < 2 ^ 53]. *)
Definition of_int (z : Z) : float := of_uint63 (Uint63.of_Z z).

(** [np.clip(x, lo, hi)] on numbers that are not nan. *)
Definition clip (x lo hi : float) : float :=
  let m := if ltb x lo then lo else x in
  if ltb hi m then hi else m.

(** The decay branch of [ExponentialDecayScheduler]'s [func], for
    [warmup_steps <= step] and [warmup_steps < max_steps]. *)
Definition decay_multiplier (log exp : float -> float)
    (lr_init lr_final : float) (warmup_steps max_steps step : Z) : float :=
  let t := clip (of_int (step - warmup_steps)
                 / of_int (max_steps - warmup_steps))%float 0%float 1%float in
  let lr := exp (log lr_init * (1 - t) + log lr_final * t)%float in
  (lr / lr_init)%float.

(** The ratio [ExponentialSchedulerConfig.setup] gives to [ExponentialLR],
    and the rate after [n] calls of [step()]. *)
Definition ratio (pow : float -> float -> float) (decay_rate : float)
    (max_steps : Z) : float :=
  pow decay_rate (1 / of_int max_steps)%float.

Fixpoint ExponentialLR_steps (base_lr gamma : float) (n : nat) : float :=
  match n with
  | O => base_lr
  | S n' => (ExponentialLR_steps base_lr gamma n' * gamma)%float
  end.

(** [0.1 ** 0.001], the second argument being the binary64 value of
    [1.0 / 1000]. *)
Definition libm_pow (x y : float) : float :=
  if (eqb x 0x1.999999999999ap-4 && eqb y 0x1.0624dd2f1a9fcp-10)%bool
  then 0x1.fed28af2ab826p-1%float
  else nan.

(** The ratio for [decay_rate = 0.1] and [max_steps = 1000]. *)
Definition example_ratio : float := ratio libm_pow 0x1.999999999999ap-4 1000.

(** [log 0.01]. *)
Definition libm_log (x : float) : float :=
  if eqb x 0x1.47ae147ae147bp-7 then (-0x1.26bb1bbb55515p+2)%float else nan.

(** [exp (log 0.01)]. *)
Definition libm_exp (x : float) : float :=
  if eqb x (-0x1.26bb1bbb55515p+2) then 0x1.47ae147ae147dp-7%float else nan.

End Binary64.

(** * Properties *)

(** Two binary64 values differ: their comparison evaluates to [false]. *)
Ltac float_differs :=
  match goal with
  | |- ?x <> ?y =>
      let H := fresh "H" in
      intros H;
      apply (f_equal (fun z => PrimFloat.eqb z y)) in H;
      vm_compute in H; discriminate H
  end.

(** ** The binary search *)

Section BinarySearch.

Variable a : list Z.
Variable key : Z.

Lemma binsearch_left_S (fuel lo hi : nat) :
  binsearch_left (S fuel) a key lo hi =
  if (lo <? hi)%nat then
    if nth (lo + (hi - lo) / 2) a 0 <? key
    then binsearch_left fuel a key (lo + (hi - lo) / 2 + 1)%nat hi
    else binsearch_left fuel a key lo (lo + (hi - lo) / 2)%nat
  else lo.
Proof. reflexivity. Qed.

(** Enough fuel: the result does not depend on the fuel once it covers the
    width of the interval. *)
Lemma binsearch_left_fuel (fuel1 fuel2 lo hi : nat) :
  (hi - lo <= fuel1)%nat -> (hi - lo <= fuel2)%nat ->
  binsearch_left fuel1 a key lo hi = binsearch_left fuel2 a key lo hi.
Proof.
  revert fuel2 lo hi.
  induction fuel1 as [|f1 IH]; intros fuel2 lo hi H1 H2.
  - destruct fuel2 as [|f2]; [reflexivity|].
    rewrite binsearch_left_S.
    destruct (Nat.ltb_spec lo hi); [lia | reflexivity].
  - destruct fuel2 as [|f2]; rewrite !binsearch_left_S.
    + destruct (Nat.ltb_spec lo hi); [lia | reflexivity].
    + destruct (Nat.ltb_spec lo hi) as [Hlt|Hge]; [|reflexivity].
      assert (Hmid : ((hi - lo) / 2 < hi - lo)%nat)
        by (apply Nat.div_lt; lia).
      destruct (nth (lo + (hi - lo) / 2) a 0 <? key);
        apply IH; lia.
Qed.

(** The elements below index [k] are less than [key] and the others are
    not: then [k] elements are less than [key]. *)
Lemma count_lt_split (l : list Z) (k : nat) :
  (k <= length l)%nat ->
  (forall i, (i < k)%nat -> nth i l 0 < key) ->
  (forall i, (k <= i < length l)%nat -> key <= nth i l 0) ->
  count_lt l key = k.
Proof.
  revert k. induction l as [|x l IH]; intros k Hk Hlo Hhi.
  - simpl in Hk. unfold count_lt. simpl. lia.
  - unfold count_lt. simpl. destruct k as [|k].
    + pose proof (Hhi 0%nat ltac:(simpl; lia)) as H0. simpl in H0.
      destruct (Z.ltb_spec x key); [lia|].
      apply (IH 0%nat); [lia | intros; lia |].
      intros i Hi. apply (Hhi (S i)). simpl. lia.
    + pose proof (Hlo 0%nat ltac:(lia)) as H0. simpl in H0.
      destruct (Z.ltb_spec x key); [|lia].
      simpl. f_equal. apply IH.
      * simpl in Hk. lia.
      * intros i Hi. apply (Hlo (S i)). lia.
      * intros i Hi. apply (Hhi (S i)). simpl. lia.
Qed.

Lemma StronglySorted_nth (l : list Z) :
  StronglySorted Z.le l ->
  forall i j, (i <= j < length l)%nat -> nth i l 0 <= nth j l 0.
Proof.
  induction 1 as [|x l Hl IH Hx]; intros i j Hij; simpl in Hij.
  - lia.
  - destruct j as [|j].
    + assert (i = 0%nat) by lia. subst. lia.
    + destruct i as [|i]; simpl.
      * rewrite Forall_forall in Hx. apply Hx. apply nth_In. lia.
      * apply IH. lia.
Qed.

Hypothesis a_sorted : StronglySorted Z.le a.

Let sorted_nth := StronglySorted_nth a a_sorted.

(** The invariant of the loop: everything left of [lo] is less than [key],
    everything from [hi] on is not. *)
Lemma binsearch_left_count (fuel lo hi : nat) :
  (hi - lo <= fuel)%nat -> (lo <= hi <= length a)%nat ->
  (forall i, (i < lo)%nat -> nth i a 0 < key) ->
  (forall i, (hi <= i < length a)%nat -> key <= nth i a 0) ->
  binsearch_left fuel a key lo hi = count_lt a key.
Proof.
  revert lo hi. induction fuel as [|f IH]; intros lo hi Hf Hb Hlo Hhi.
  - simpl. symmetry. apply count_lt_split; try lia; auto.
    intros i Hi. apply Hhi. lia.
  - rewrite binsearch_left_S. destruct (Nat.ltb_spec lo hi) as [Hlt|Hge].
    + assert (Hmid : ((hi - lo) / 2 < hi - lo)%nat)
        by (apply Nat.div_lt; lia).
      destruct (Z.ltb_spec (nth (lo + (hi - lo) / 2) a 0) key) as [Hv|Hv].
      * apply IH; try lia; auto.
        intros i Hi.
        apply Z.le_lt_trans with (nth (lo + (hi - lo) / 2) a 0);
          [apply sorted_nth; lia | exact Hv].
      * apply IH; try lia; auto.
        intros i Hi.
        apply Z.le_trans with (nth (lo + (hi - lo) / 2) a 0);
          [exact Hv | apply sorted_nth; lia].
    + symmetry. apply count_lt_split; try lia; auto.
      intros i Hi. apply Hhi. lia.
Qed.

Lemma searchsorted_left_count : searchsorted_left a key = count_lt a key.
Proof.
  unfold searchsorted_left. apply binsearch_left_count; intros; lia.
Qed.

End BinarySearch.

(** ** MultiStepWarmupScheduler *)

Section MultiStepWarmupFacts.

Import MultiStepWarmupScheduler.

Lemma multistep_warmup_after_warmup config step :
  warm_up_end config <= step ->
  func config step =
  Ok (gamma config ^ searchsorted_left (milestones config) step)%R.
Proof.
  intros Hstep. unfold func.
  destruct (Z.ltb_spec step (warm_up_end config)); [lia | reflexivity].
Qed.

Lemma default_index_300000 :
  searchsorted_left (milestones default) 300000 = 0%nat.
Proof. vm_compute. reflexivity. Qed.

Lemma default_index_299999 :
  searchsorted_left (milestones default) 299999 = 0%nat.
Proof. vm_compute. reflexivity. Qed.

Lemma default_index_300001 :
  searchsorted_left (milestones default) 300001 = 1%nat.
Proof. vm_compute. reflexivity. Qed.

(** C1, as stated, fails: with [warm_up_end = 5000],
    [milestones = [300000; 400000; 500000]] and [gamma = 0.33], the
    multiplier at step 300000 is not [0.33 ^ 1]. *)
Lemma multistep_warmup_at_milestone_not_gamma :
  func default 300000 <> Ok (0.33 ^ 1)%R.
Proof.
  rewrite multistep_warmup_after_warmup by (simpl; lia).
  rewrite default_index_300000. simpl.
  intros H. injection H as H. lra.
Qed.

(** C1, amended: with [warm_up_end = 5000],
    [milestones = [300000; 400000; 500000]] and [gamma = 0.33], the
    multiplier at step 300000, a step equal to the first milestone, is
    [0.33 ^ 0 = 1], and the multiplier at step 299999 is [0.33 ^ 0 = 1]. *)
Theorem multistep_warmup_default_at_milestone :
  func default 300000 = Ok (0.33 ^ 0)%R /\
  func default 299999 = Ok (0.33 ^ 0)%R /\
  (0.33 ^ 0 = 1)%R.
Proof.
  split; [|split].
  - rewrite multistep_warmup_after_warmup by (simpl; lia).
    rewrite default_index_300000. reflexivity.
  - rewrite multistep_warmup_after_warmup by (simpl; lia).
    rewrite default_index_299999. reflexivity.
  - simpl. lra.
Qed.

(** C2: after the warmup, on sorted milestones, the multiplier is [gamma]
    raised to the number of milestones strictly less than [step]; a
    milestone equal to [step] is not counted. *)
Theorem multistep_warmup_left_biased config step :
  Sorted Z.le (milestones config) ->
  warm_up_end config <= step ->
  func config step =
  Ok (gamma config ^ count_lt (milestones config) step)%R.
Proof.
  intros Hsorted Hstep.
  rewrite multistep_warmup_after_warmup by assumption.
  rewrite searchsorted_left_count; [reflexivity|].
  apply Sorted_StronglySorted; [|assumption].
  intros x y z. apply Z.le_trans.
Qed.

Lemma multistep_warmup_left_biased_witness :
  Sorted Z.le (milestones default) /\
  warm_up_end default <= 400000 /\
  func default 400000 =
  Ok (gamma default ^ count_lt (milestones default) 400000)%R.
Proof.
  assert (Hs : Sorted Z.le (milestones default)).
  { simpl. repeat constructor; lia. }
  assert (Hw : warm_up_end default <= 400000) by (simpl; lia).
  split; [exact Hs|]. split; [exact Hw|].
  exact (multistep_warmup_left_biased default 400000 Hs Hw).
Defined.

End MultiStepWarmupFacts.

(** ** MultiStepScheduler *)

Section MultiStepFacts.

Import MultiStepScheduler.

Lemma MultiStepLR_get_lr_pow ms g epoch lr :
  MultiStepLR_get_lr ms g epoch lr = (lr * g ^ counter ms epoch)%R.
Proof.
  unfold MultiStepLR_get_lr.
  destruct (Nat.eqb_spec (counter ms epoch) 0) as [E|E]; [|reflexivity].
  rewrite E. simpl. lra.
Qed.

Lemma count_le_succ ms x :
  count_le ms (x + 1) = (count_le ms x + counter ms (x + 1))%nat.
Proof.
  unfold count_le, counter. induction ms as [|m ms IH]; simpl; [reflexivity|].
  destruct (Z.eq_dec m (x + 1)) as [E|E];
    destruct (Z.leb_spec m (x + 1)); destruct (Z.leb_spec m x);
    simpl; lia.
Qed.

Lemma count_le_zero ms :
  Forall (fun m => 0 <= m) ms -> count_le ms 0 = counter ms 0.
Proof.
  unfold count_le, counter. induction 1 as [|m ms Hm _ IH]; simpl;
    [reflexivity|].
  destruct (Z.eq_dec m 0); destruct (Z.leb_spec m 0); simpl; lia.
Qed.

Lemma MultiStepLR_steps_closed base ms g n :
  Forall (fun m => 0 <= m) ms ->
  MultiStepLR_steps base ms g n = (base * g ^ count_le ms (Z.of_nat n))%R.
Proof.
  intros Hms. induction n as [|n IH].
  - simpl. rewrite MultiStepLR_get_lr_pow, count_le_zero by assumption.
    reflexivity.
  - cbn [MultiStepLR_steps]. rewrite MultiStepLR_get_lr_pow, IH.
    rewrite Nat2Z.inj_succ, <- Z.add_1_r, count_le_succ, pow_add. ring.
Qed.

(** C3: on milestones that are step counts (none negative), for every
    [step >= 0] the rate is the initial rate times [gamma] raised to the
    number of milestones less than or equal to [step]; with the default
    milestones and [gamma = 0.33] the multipliers at steps 0, 500000, 750000
    and 1000000 are 1, 0.33, [0.33 ^ 2] and [0.33 ^ 3]. *)
Theorem multistep_counts_reached_milestones :
  (forall config lr_init step,
      Forall (fun m => 0 <= m) (milestones config) ->
      0 <= step ->
      get_scheduler config lr_init step =
      (lr_init * gamma config ^ count_le (milestones config) step)%R) /\
  (forall lr_init,
      get_scheduler default lr_init 0 = (lr_init * 1.0)%R /\
      get_scheduler default lr_init 500000 = (lr_init * 0.33)%R /\
      get_scheduler default lr_init 750000 = (lr_init * 0.33 ^ 2)%R /\
      get_scheduler default lr_init 1000000 = (lr_init * 0.33 ^ 3)%R).
Proof.
  assert (Hgen : forall config lr_init step,
      Forall (fun m => 0 <= m) (milestones config) ->
      0 <= step ->
      get_scheduler config lr_init step =
      (lr_init * gamma config ^ count_le (milestones config) step)%R).
  { intros config lr_init step Hms Hstep.
    unfold get_scheduler, MultiStepLR.
    rewrite MultiStepLR_steps_closed by assumption.
    rewrite Z2Nat.id by assumption. reflexivity. }
  split; [exact Hgen|].
  assert (Hms : Forall (fun m => 0 <= m) (milestones default)).
  { simpl. repeat constructor; lia. }
  intros lr_init.
  split; [|split; [|split]]; rewrite Hgen by (assumption || lia).
  - replace (count_le (milestones default) 0) with 0%nat
      by (vm_compute; reflexivity).
    simpl. lra.
  - replace (count_le (milestones default) 500000) with 1%nat
      by (vm_compute; reflexivity).
    simpl. lra.
  - replace (count_le (milestones default) 750000) with 2%nat
      by (vm_compute; reflexivity).
    reflexivity.
  - replace (count_le (milestones default) 1000000) with 3%nat
      by (vm_compute; reflexivity).
    reflexivity.
Qed.

Lemma multistep_counts_reached_milestones_witness :
  Forall (fun m => 0 <= m) (milestones default) /\
  0 <= 750000 /\
  get_scheduler default 1 750000 =
  (1 * gamma default ^ count_le (milestones default) 750000)%R.
Proof.
  assert (Hms : Forall (fun m => 0 <= m) (milestones default)).
  { simpl. repeat constructor; lia. }
  assert (Hstep : 0 <= 750000) by lia.
  split; [exact Hms|]. split; [exact Hstep|].
  exact (proj1 multistep_counts_reached_milestones default 1%R 750000
           Hms Hstep).
Defined.

End MultiStepFacts.

(** ** ExponentialDecayScheduler *)

Section ExponentialDecayFacts.

Import ExponentialDecayScheduler.
Import PrimFloat.

Lemma int_truediv_ok a b :
  b <> 0 -> int_truediv a b = Ok (IZR a / IZR b)%R.
Proof.
  intros Hb. unfold int_truediv.
  destruct (Z.eqb_spec b 0); [contradiction | reflexivity].
Qed.

Lemma clip_unit_range x : (0 <= clip x 0 1 <= 1)%R.
Proof.
  unfold clip, Rmin, Rmax.
  destruct (Rle_dec x 0); destruct (Rle_dec _ 1); lra.
Qed.

Lemma clip_above x : (1 <= x)%R -> clip x 0 1 = 1%R.
Proof.
  intros Hx. unfold clip, Rmin, Rmax.
  destruct (Rle_dec x 0); destruct (Rle_dec _ 1); lra.
Qed.

Lemma expdecay_decay_branch config lr_init step :
  warmup_steps config <= step ->
  func config lr_init step =
  (t <- decay_progress config step ;;
   Ok (exp (ln lr_init * (1 - t) + ln (final_lr config lr_init) * t)
       / lr_init)%R).
Proof.
  intros Hstep. unfold func, in_warmup.
  destruct (Z.ltb_spec step (warmup_steps config)); [lia | reflexivity].
Qed.

Lemma decay_progress_past_max config step :
  warmup_steps config < max_steps config ->
  max_steps config <= step ->
  decay_progress config step = Ok 1%R.
Proof.
  intros Hw Hstep. unfold decay_progress.
  rewrite int_truediv_ok by lia. simpl. f_equal.
  apply clip_above.
  assert (Hd : (0 < IZR (max_steps config - warmup_steps config))%R)
    by (apply IZR_lt; lia).
  assert (Hn : (IZR (max_steps config - warmup_steps config)
                <= IZR (step - warmup_steps config))%R)
    by (apply IZR_le; lia).
  apply Rmult_le_reg_r with (IZR (max_steps config - warmup_steps config));
    [exact Hd|].
  unfold Rdiv. rewrite Rmult_assoc, Rinv_l by lra. lra.
Qed.

Lemma decay_progress_ok config step :
  warmup_steps config <> max_steps config ->
  exists t, decay_progress config step = Ok t /\ (0 <= t <= 1)%R.
Proof.
  intros Hw. unfold decay_progress.
  rewrite int_truediv_ok by lia. simpl.
  eexists. split; [reflexivity | apply clip_unit_range].
Qed.

(** C4: with [warmup_steps < max_steps], at every [step >= max_steps] the
    clamped progress is 1 and the multiplier is the one at [max_steps]; it is
    [lr_final / lr_init] when the final rate is positive. *)
Theorem expdecay_flat_past_max_steps config lr_init step :
  warmup_steps config < max_steps config ->
  max_steps config <= step ->
  decay_progress config step = Ok 1%R /\
  func config lr_init step = func config lr_init (max_steps config) /\
  ((0 < final_lr config lr_init)%R ->
   func config lr_init step = Ok (final_lr config lr_init / lr_init)%R).
Proof.
  intros Hw Hstep.
  assert (Hp := decay_progress_past_max config step Hw Hstep).
  assert (Hm := decay_progress_past_max config (max_steps config) Hw
                  (Z.le_refl _)).
  split; [exact Hp|]. split.
  - rewrite !expdecay_decay_branch by lia. rewrite Hp, Hm. reflexivity.
  - intros Hpos. rewrite expdecay_decay_branch by lia. rewrite Hp. simpl.
    f_equal. f_equal.
    replace (ln lr_init * (1 - 1) + ln (final_lr config lr_init) * 1)%R
      with (ln (final_lr config lr_init)) by ring.
    apply exp_ln. exact Hpos.
Qed.

Lemma expdecay_flat_past_max_steps_witness :
  warmup_steps example_config < max_steps example_config /\
  max_steps example_config <= 2000 /\
  (0 < final_lr example_config 0.01)%R /\
  func example_config 0.01 2000 = func example_config 0.01 1000 /\
  func example_config 0.01 2000 = Ok (0.0001 / 0.01)%R.
Proof.
  assert (Hw : warmup_steps example_config < max_steps example_config)
    by (simpl; lia).
  assert (Hs : max_steps example_config <= 2000) by (simpl; lia).
  assert (Hf : (0 < final_lr example_config 0.01)%R)
    by (change (0 < 0.0001)%R; lra).
  split; [exact Hw|]. split; [exact Hs|]. split; [exact Hf|].
  pose proof
    (expdecay_flat_past_max_steps example_config 0.01%R 2000 Hw Hs)
    as [_ [Heq Hval]].
  split; [exact Heq | exact (Hval Hf)].
Defined.

(** C5, as stated, fails.  With [lr_final] unset and
    [warmup_steps = max_steps = 100] the evaluation at step 100 raises
    instead of returning 1; and on the default configuration with
    [lr_init = 0.01] the binary64 evaluation at step 0 gives
    [0x1.0000000000002p+0], that is 1.0000000000000004, not 1. *)
Lemma expdecay_lr_final_unset_not_one :
  (lr_final degenerate_config = None /\
   warmup_steps degenerate_config <= 100 /\
   func degenerate_config 0.01 100 = ZeroDivisionError /\
   func degenerate_config 0.01 100 <> Ok 1%R) /\
  (Binary64.decay_multiplier Binary64.libm_log Binary64.libm_exp
     0x1.47ae147ae147bp-7%float 0x1.47ae147ae147bp-7%float 0 100000 0
   = 0x1.0000000000002p+0%float /\
   0x1.0000000000002p+0%float <> 1%float).
Proof.
  assert (Hfault : func degenerate_config 0.01 100 = ZeroDivisionError).
  { rewrite expdecay_decay_branch by (simpl; lia). reflexivity. }
  split.
  - split; [reflexivity|]. split; [simpl; lia|]. split; [exact Hfault|].
    rewrite Hfault. discriminate.
  - split; [vm_compute; reflexivity | float_differs].
Qed.

(** C5, amended: when [lr_final] is unset the final rate is the initial
    rate, and for a positive initial rate and a configuration whose
    [max_steps] differs from its [warmup_steps] the multiplier is, in exact
    arithmetic, 1 at every step of the decay phase. *)
Theorem expdecay_lr_final_unset_flat config lr_init step :
  lr_final config = None ->
  (0 < lr_init)%R ->
  warmup_steps config <> max_steps config ->
  warmup_steps config <= step ->
  final_lr config lr_init = lr_init /\
  func config lr_init step = Ok 1%R.
Proof.
  intros Hnone Hpos Hw Hstep.
  assert (Hf : final_lr config lr_init = lr_init)
    by (unfold final_lr; rewrite Hnone; reflexivity).
  split; [exact Hf|].
  rewrite expdecay_decay_branch by assumption. rewrite Hf.
  destruct (decay_progress_ok config step Hw) as [t [Ht _]].
  rewrite Ht. simpl. f_equal.
  replace (ln lr_init * (1 - t) + ln lr_init * t)%R with (ln lr_init)
    by ring.
  rewrite exp_ln by assumption. field. lra.
Qed.

Lemma expdecay_lr_final_unset_flat_witness :
  lr_final default = None /\
  (0 < 0.01)%R /\
  warmup_steps default <> max_steps default /\
  warmup_steps default <= 500 /\
  func default 0.01 500 = Ok 1%R.
Proof.
  assert (Hn : lr_final default = None) by reflexivity.
  assert (Hp : (0 < 0.01)%R) by lra.
  assert (Hw : warmup_steps default <> max_steps default)
    by (simpl; lia).
  assert (Hs : warmup_steps default <= 500) by (simpl; lia).
  split; [exact Hn|]. split; [exact Hp|]. split; [exact Hw|].
  split; [exact Hs|].
  exact (proj2 (expdecay_lr_final_unset_flat default 0.01%R 500
                  Hn Hp Hw Hs)).
Defined.

(** C8: when [warmup_steps] equals [max_steps], the evaluation at any step
    of the decay phase raises [ZeroDivisionError]. *)
Theorem expdecay_division_by_zero config lr_init step :
  warmup_steps config = max_steps config ->
  warmup_steps config <= step ->
  func config lr_init step = ZeroDivisionError.
Proof.
  intros Hw Hstep. rewrite expdecay_decay_branch by assumption.
  unfold decay_progress, int_truediv.
  replace (max_steps config - warmup_steps config) with 0 by lia.
  reflexivity.
Qed.

Lemma expdecay_division_by_zero_witness :
  warmup_steps degenerate_config = max_steps degenerate_config /\
  warmup_steps degenerate_config <= 100 /\
  func degenerate_config 0.01 100 = ZeroDivisionError.
Proof.
  assert (Hw : warmup_steps degenerate_config = max_steps degenerate_config)
    by reflexivity.
  assert (Hs : warmup_steps degenerate_config <= 100) by (simpl; lia).
  split; [exact Hw|]. split; [exact Hs|].
  exact (expdecay_division_by_zero degenerate_config 0.01%R 100 Hw Hs).
Defined.

(** C10: with [warmup_steps = 0] and [max_steps > 0], at every [step >= 0]
    the warmup test fails, so the division by [warmup_steps] is not
    evaluated, and the evaluation returns a value: no [ZeroDivisionError]. *)
Theorem expdecay_no_warmup_no_fault config lr_init step :
  warmup_steps config = 0 ->
  0 < max_steps config ->
  0 <= step ->
  in_warmup config step = false /\
  exists r, func config lr_init step = Ok r.
Proof.
  intros Hw Hmax Hstep. split.
  - unfold in_warmup. apply Z.ltb_ge. lia.
  - rewrite expdecay_decay_branch by lia.
    destruct (decay_progress_ok config step ltac:(lia)) as [t [Ht _]].
    rewrite Ht. simpl. eexists. reflexivity.
Qed.

Lemma expdecay_no_warmup_no_fault_witness :
  warmup_steps default = 0 /\
  0 < max_steps default /\
  0 <= 0 /\
  in_warmup default 0 = false /\
  exists r, func default 0.01 0 = Ok r.
Proof.
  assert (Hw : warmup_steps default = 0) by reflexivity.
  assert (Hm : 0 < max_steps default) by (simpl; lia).
  assert (Hs : 0 <= 0) by lia.
  split; [exact Hw|]. split; [exact Hm|]. split; [exact Hs|].
  exact (expdecay_no_warmup_no_fault default 0.01%R 0 Hw Hm Hs).
Defined.

End ExponentialDecayFacts.

(** ** CosineDecayScheduler and NeuSScheduler *)

Section CosineDecayFacts.

Import CosineDecayScheduler.

(** C6: with [warm_up_end = 5000], [max_steps = 300000] and
    [learning_rate_alpha = 0.05] the multiplier is 0 at step 0, 1 at step
    5000 and 0.05, the value of alpha, at step 300000. *)
Theorem cosine_default_values :
  func default 0 = Ok 0.0%R /\
  func default 5000 = Ok 1.0%R /\
  func default 300000 = Ok 0.05%R.
Proof.
  split; [|split].
  - unfold func, int_truediv. simpl. f_equal. lra.
  - unfold func, int_truediv. simpl. f_equal.
    replace (PI * (0 / 295000))%R with 0%R by lra.
    rewrite cos_0. lra.
  - unfold func, int_truediv. simpl. f_equal.
    replace (PI * (295000 / 295000))%R with PI by lra.
    rewrite cos_PI. lra.
Qed.

(** C9: for all parameter values and every step, the step function of
    [NeuSScheduler] returns what the step function of [CosineDecayScheduler]
    returns on a configuration with the same values, faults included; so do
    the two schedulers built from them. *)
Theorem neus_equiv_cosine :
  (forall warm_up_end learning_rate_alpha max_steps step,
      NeuSScheduler.func warm_up_end learning_rate_alpha max_steps step =
      func (cosine_config warm_up_end learning_rate_alpha max_steps) step) /\
  (forall config lr_init step,
      NeuSScheduler.setup config lr_init step =
      get_scheduler
        (cosine_config (NeuSScheduler.warm_up_end config)
                       (NeuSScheduler.learning_rate_alpha config)
                       (NeuSScheduler.max_steps config))
        lr_init step).
Proof.
  split.
  - intros w alpha m step. unfold NeuSScheduler.func, func, cosine_config.
    cbn [warm_up_end learning_rate_alpha max_steps].
    destruct (step <? w); reflexivity.
  - intros config lr_init step.
    unfold NeuSScheduler.setup, get_scheduler, LambdaLR.
    f_equal.
Qed.

End CosineDecayFacts.

(** ** ExponentialSchedulerConfig *)

Section ExponentialFacts.

Import ExponentialScheduler.
Import PrimFloat.

Lemma ExponentialLR_steps_Rpower base d e n :
  (0 < d)%R ->
  ExponentialLR_steps base (Rpower d e) n = (base * Rpower d (INR n * e))%R.
Proof.
  intros Hd. induction n as [|n IH].
  - cbn [ExponentialLR_steps]. change (INR 0) with 0%R.
    rewrite Rmult_0_l, Rpower_O by assumption. ring.
  - cbn [ExponentialLR_steps]. rewrite IH, S_INR.
    replace ((INR n + 1) * e)%R with (INR n * e + e)%R by ring.
    rewrite Rpower_plus. ring.
Qed.

Lemma ratio_positive config :
  (0 < decay_rate config)%R ->
  0 < max_steps config ->
  ratio config =
  Ok (Rpower (decay_rate config) (1 / IZR (max_steps config))).
Proof.
  intros Hd Hm. unfold ratio, float_truediv.
  destruct (Req_EM_T (IZR (max_steps config)) 0) as [E|E].
  - apply eq_IZR_R0 in E. lia.
  - cbn [bind]. unfold float_pow.
    destruct (Rlt_dec 0 (decay_rate config)); [|contradiction].
    do 2 f_equal. lra.
Qed.

Lemma ExponentialLR_multiple d m base k :
  (0 < d)%R -> 0 < m -> 0 <= k ->
  ExponentialLR base (Rpower d (1 / IZR m)) (k * m) =
  (base * d ^ Z.to_nat k)%R.
Proof.
  intros Hd Hm Hk. unfold ExponentialLR.
  rewrite ExponentialLR_steps_Rpower by assumption.
  rewrite INR_IZR_INZ, Z2Nat.id by nia.
  rewrite mult_IZR.
  assert (Hm' : (0 < IZR m)%R) by (apply IZR_lt; lia).
  replace (IZR k * IZR m * (1 / IZR m))%R with (IZR k)
    by (field; lra).
  rewrite <- (Z2Nat.id k) at 1 by assumption.
  rewrite <- INR_IZR_INZ, Rpower_pow by assumption.
  reflexivity.
Qed.

(** C7, as stated, fails: the multiplier is not exactly 0.1.  In binary64,
    with [decay_rate = 0.1], [max_steps = 1000] and a base rate of 1, the
    rate after 1000 products by the ratio is [0x1.999999999986dp-4], that is
    0.09999999999999583, and after 2000 it is [0x1.47ae147ae1295p-7], that is
    0.009999999999999157; neither is the binary64 value of 0.1 or 0.01.  A
    ratio one unit in the last place below or above does not give them
    either. *)
Lemma exponential_binary64_not_exact :
  Binary64.example_ratio = 0x1.fed28af2ab826p-1%float /\
  Binary64.ExponentialLR_steps 1 Binary64.example_ratio 1000
    = 0x1.999999999986dp-4%float /\
  Binary64.ExponentialLR_steps 1 Binary64.example_ratio 1000
    <> 0x1.999999999999ap-4%float /\
  Binary64.ExponentialLR_steps 1 Binary64.example_ratio 2000
    = 0x1.47ae147ae1295p-7%float /\
  Binary64.ExponentialLR_steps 1 Binary64.example_ratio 2000
    <> 0x1.47ae147ae147bp-7%float /\
  Binary64.ExponentialLR_steps 1
    (PrimFloat.next_down Binary64.example_ratio) 1000
    <> 0x1.999999999999ap-4%float /\
  Binary64.ExponentialLR_steps 1
    (PrimFloat.next_up Binary64.example_ratio) 1000
    <> 0x1.999999999999ap-4%float.
Proof.
  repeat apply conj;
    try (vm_compute; reflexivity); float_differs.
Qed.

(** C7, amended: for a positive [decay_rate] and [max_steps], the ratio given
    to [ExponentialLR] is [decay_rate] to the power [1 / max_steps], and in
    exact arithmetic the rate after [k * max_steps] steps is the initial rate
    times [decay_rate ^ k]; after [max_steps] steps the multiplier is
    [decay_rate].  With [decay_rate = 0.1] and [max_steps = 1000] the
    multiplier is, in exact arithmetic, 0.1 at step 1000 and 0.01 at step
    2000. *)
Theorem exponential_cumulative_decay :
  (forall config lr_init,
      (0 < decay_rate config)%R ->
      0 < max_steps config ->
      ratio config =
        Ok (Rpower (decay_rate config) (1 / IZR (max_steps config))) /\
      exists scheduler,
        setup config lr_init = Ok scheduler /\
        scheduler (max_steps config) = (lr_init * decay_rate config)%R /\
        forall k, 0 <= k ->
          scheduler (k * max_steps config) =
          (lr_init * decay_rate config ^ Z.to_nat k)%R) /\
  (forall lr_init,
      exists scheduler,
        setup {| decay_rate := 0.1; max_steps := 1000 |} lr_init
          = Ok scheduler /\
        scheduler 1000 = (lr_init * 0.1)%R /\
        scheduler 2000 = (lr_init * 0.01)%R).
Proof.
  assert (Hgen : forall config lr_init,
      (0 < decay_rate config)%R ->
      0 < max_steps config ->
      ratio config =
        Ok (Rpower (decay_rate config) (1 / IZR (max_steps config))) /\
      exists scheduler,
        setup config lr_init = Ok scheduler /\
        scheduler (max_steps config) = (lr_init * decay_rate config)%R /\
        forall k, 0 <= k ->
          scheduler (k * max_steps config) =
          (lr_init * decay_rate config ^ Z.to_nat k)%R).
  { intros config lr_init Hd Hm.
    pose proof (ratio_positive config Hd Hm) as Hr.
    split; [exact Hr|].
    eexists. split; [|split].
    - unfold setup. rewrite Hr. cbn [bind]. reflexivity.
    - rewrite <- (Z.mul_1_l (max_steps config)) at 2.
      rewrite ExponentialLR_multiple by (assumption || lia).
      change (Z.to_nat 1) with 1%nat. rewrite pow_1. reflexivity.
    - intros k Hk. apply ExponentialLR_multiple; assumption. }
  split; [exact Hgen|].
  intros lr_init.
  destruct (Hgen {| decay_rate := 0.1; max_steps := 1000 |} lr_init)
    as [_ [scheduler [Hs [_ Hk]]]].
  - cbn [decay_rate]. lra.
  - cbn [max_steps]. lia.
  - exists scheduler. split; [exact Hs|].
    cbn [decay_rate max_steps] in Hk. split.
    + change 1000 with (1 * 1000). rewrite Hk by lia.
      change (Z.to_nat 1) with 1%nat. lra.
    + change 2000 with (2 * 1000). rewrite Hk by lia.
      change (Z.to_nat 2) with 2%nat. lra.
Qed.

Lemma exponential_cumulative_decay_witness :
  (0 < decay_rate {| decay_rate := 0.1; max_steps := 1000 |})%R /\
  0 < max_steps {| decay_rate := 0.1; max_steps := 1000 |} /\
  exists scheduler,
    setup {| decay_rate := 0.1; max_steps := 1000 |} 0.01 = Ok scheduler /\
    scheduler 1000 = (0.01 * 0.1)%R.
Proof.
  assert (Hd : (0 < decay_rate {| decay_rate := 0.1; max_steps := 1000 |})%R)
    by (simpl; lra).
  assert (Hm : 0 < max_steps {| decay_rate := 0.1; max_steps := 1000 |})
    by (simpl; lia).
  split; [exact Hd|]. split; [exact Hm|].
  destruct (proj1 exponential_cumulative_decay
              {| decay_rate := 0.1; max_steps := 1000 |} 0.01%R Hd Hm)
    as [_ [scheduler [Hs [H1 _]]]].
  exists scheduler. split; [exact Hs | exact H1].
Defined.

End ExponentialFacts.

(** * Further properties of the schedulers *)

(** ** The search of [np.searchsorted] on any list *)

Section BinarySearchAnyList.

Variable a : list Z.
Variable key : Z.

(** The index found stays inside the interval searched. *)
Lemma binsearch_left_bounds (fuel lo hi : nat) :
  (lo <= hi)%nat ->
  (lo <= binsearch_left fuel a key lo hi <= hi)%nat.
Proof.
  revert lo hi. induction fuel as [|f IH]; intros lo hi Hle.
  - simpl. lia.
  - rewrite binsearch_left_S. destruct (Nat.ltb_spec lo hi) as [Hlt|Hge];
      [|lia].
    assert (Hmid : ((hi - lo) / 2 < hi - lo)%nat)
      by (apply Nat.div_lt; lia).
    destruct (nth (lo + (hi - lo) / 2) a 0 <? key).
    + specialize (IH (lo + (hi - lo) / 2 + 1)%nat hi ltac:(lia)). lia.
    + specialize (IH lo (lo + (hi - lo) / 2)%nat ltac:(lia)). lia.
Qed.

(** Every probed element is less than the key: the search ends at the right
    end of the interval. *)
Lemma binsearch_left_all_less (fuel lo hi : nat) :
  (hi - lo <= fuel)%nat -> (lo <= hi)%nat ->
  (forall i, (lo <= i < hi)%nat -> nth i a 0 < key) ->
  binsearch_left fuel a key lo hi = hi.
Proof.
  revert lo hi. induction fuel as [|f IH]; intros lo hi Hf Hle Hall.
  - simpl. lia.
  - rewrite binsearch_left_S. destruct (Nat.ltb_spec lo hi) as [Hlt|Hge];
      [|lia].
    assert (Hmid : ((hi - lo) / 2 < hi - lo)%nat)
      by (apply Nat.div_lt; lia).
    destruct (Z.ltb_spec (nth (lo + (hi - lo) / 2) a 0) key) as [Hv|Hv].
    + apply IH; try lia. intros i Hi. apply Hall. lia.
    + specialize (Hall (lo + (hi - lo) / 2)%nat ltac:(lia)). lia.
Qed.

(** No probed element is less than the key: the search ends at the left end
    of the interval. *)
Lemma binsearch_left_none_less (fuel lo hi : nat) :
  (forall i, (lo <= i < hi)%nat -> key <= nth i a 0) ->
  binsearch_left fuel a key lo hi = lo.
Proof.
  revert hi. induction fuel as [|f IH]; intros hi Hall.
  - reflexivity.
  - rewrite binsearch_left_S. destruct (Nat.ltb_spec lo hi) as [Hlt|Hge];
      [|reflexivity].
    assert (Hmid : ((hi - lo) / 2 < hi - lo)%nat)
      by (apply Nat.div_lt; lia).
    destruct (Z.ltb_spec (nth (lo + (hi - lo) / 2) a 0) key) as [Hv|Hv].
    + specialize (Hall (lo + (hi - lo) / 2)%nat ltac:(lia)). lia.
    + apply IH. intros i Hi. apply Hall. lia.
Qed.

Lemma Forall_nth_Z (P : Z -> Prop) (l : list Z) :
  Forall P l -> forall i, (i < length l)%nat -> P (nth i l 0).
Proof.
  intros HP i Hi. rewrite Forall_forall in HP. apply HP. apply nth_In.
  exact Hi.
Qed.

Lemma searchsorted_left_le_length :
  (searchsorted_left a key <= length a)%nat.
Proof.
  unfold searchsorted_left.
  pose proof (binsearch_left_bounds (length a) 0 (length a)) as H. lia.
Qed.

Lemma searchsorted_left_all_less :
  Forall (fun m => m < key) a -> searchsorted_left a key = length a.
Proof.
  intros Hall. unfold searchsorted_left.
  apply binsearch_left_all_less; try lia.
  intros i Hi. apply (Forall_nth_Z (fun m => m < key)); [exact Hall | lia].
Qed.

Lemma searchsorted_left_none_less :
  Forall (fun m => key <= m) a -> searchsorted_left a key = 0%nat.
Proof.
  intros Hall. unfold searchsorted_left.
  apply binsearch_left_none_less.
  intros i Hi. apply (Forall_nth_Z (fun m => key <= m)); [exact Hall | lia].
Qed.

End BinarySearchAnyList.

(** The search needs one probe per halving.  With any fuel [n] such that
    the list is shorter than [2 ^ n], the loop returns the index
    [searchsorted_left] returns: [log2 (length a) + 1] probes are enough, on
    sorted and unsorted lists alike. *)
Lemma searchsorted_left_log_probes (a : list Z) (key : Z) (fuel : nat) :
  (length a < 2 ^ fuel)%nat ->
  binsearch_left fuel a key 0 (length a) = searchsorted_left a key.
Proof.
  assert (Hgen : forall f1 f2 lo hi,
             (hi - lo < 2 ^ f1)%nat -> (hi - lo < 2 ^ f2)%nat ->
             binsearch_left f1 a key lo hi = binsearch_left f2 a key lo hi).
  { induction f1 as [|f1 IH]; intros f2 lo hi H1 H2.
    - simpl in H1. destruct f2 as [|f2]; [reflexivity|].
      rewrite binsearch_left_S.
      destruct (Nat.ltb_spec lo hi); [lia | reflexivity].
    - destruct f2 as [|f2].
      + simpl in H2. rewrite binsearch_left_S.
        destruct (Nat.ltb_spec lo hi); [lia | reflexivity].
      + rewrite !binsearch_left_S.
        destruct (Nat.ltb_spec lo hi) as [Hlt|Hge]; [|reflexivity].
        rewrite Nat.pow_succ_r' in H1, H2.
        pose proof (Nat.div_mod_eq (hi - lo) 2) as Hdiv.
        pose proof (Nat.mod_upper_bound (hi - lo) 2 ltac:(lia)) as Hmod.
        destruct (nth (lo + (hi - lo) / 2) a 0 <? key); apply IH; lia. }
  intros Hlen. unfold searchsorted_left. apply Hgen.
  - lia.
  - pose proof (Nat.pow_gt_lin_r 2 (length a)). lia.
Qed.

Lemma searchsorted_left_log_probes_witness :
  (length (MultiStepWarmupScheduler.milestones
             MultiStepWarmupScheduler.default) < 2 ^ 2)%nat /\
  binsearch_left 2
    (MultiStepWarmupScheduler.milestones MultiStepWarmupScheduler.default)
    450000 0
    (length (MultiStepWarmupScheduler.milestones
               MultiStepWarmupScheduler.default)) =
  searchsorted_left
    (MultiStepWarmupScheduler.milestones MultiStepWarmupScheduler.default)
    450000.
Proof.
  assert (H : (length (MultiStepWarmupScheduler.milestones
                         MultiStepWarmupScheduler.default) < 2 ^ 2)%nat)
    by (simpl; lia).
  split; [exact H|].
  exact (searchsorted_left_log_probes _ 450000 2 H).
Defined.

(** ** MultiStepWarmupScheduler, further *)

Section MultiStepWarmupMore.

Import MultiStepWarmupScheduler.

(** X1: after the warmup the exponent of [gamma] is an index into the
    milestones, at most their number, whatever their order. *)
Theorem multistep_warmup_index_in_range config step :
  warm_up_end config <= step ->
  exists index,
    (index <= length (milestones config))%nat /\
    func config step = Ok (gamma config ^ index)%R.
Proof.
  intros Hstep. exists (searchsorted_left (milestones config) step). split.
  - apply searchsorted_left_le_length.
  - apply multistep_warmup_after_warmup. exact Hstep.
Qed.

Lemma multistep_warmup_index_in_range_witness :
  warm_up_end default <= 450000 /\
  exists index,
    (index <= length (milestones default))%nat /\
    func default 450000 = Ok (gamma default ^ index)%R.
Proof.
  assert (H : warm_up_end default <= 450000) by (simpl; lia).
  split; [exact H|].
  exact (multistep_warmup_index_in_range default 450000 H).
Defined.

(** X2: past every milestone the multiplier is [gamma] raised to the number
    of milestones, sorted or not. *)
Theorem multistep_warmup_past_all_milestones config step :
  warm_up_end config <= step ->
  Forall (fun m => m < step) (milestones config) ->
  func config step = Ok (gamma config ^ length (milestones config))%R.
Proof.
  intros Hstep Hall. rewrite multistep_warmup_after_warmup by assumption.
  rewrite searchsorted_left_all_less by assumption. reflexivity.
Qed.

Lemma multistep_warmup_past_all_milestones_witness :
  warm_up_end default <= 500001 /\
  Forall (fun m => m < 500001) (milestones default) /\
  func default 500001 = Ok (gamma default ^ length (milestones default))%R.
Proof.
  assert (H : warm_up_end default <= 500001) by (simpl; lia).
  assert (Hall : Forall (fun m => m < 500001) (milestones default))
    by (simpl; repeat constructor; lia).
  split; [exact H|]. split; [exact Hall|].
  exact (multistep_warmup_past_all_milestones default 500001 H Hall).
Defined.

(** X3: when no milestone is less than the step (an empty milestone list
    included) the multiplier after the warmup is 1, sorted or not. *)
Theorem multistep_warmup_before_milestones config step :
  warm_up_end config <= step ->
  Forall (fun m => step <= m) (milestones config) ->
  func config step = Ok 1%R.
Proof.
  intros Hstep Hall. rewrite multistep_warmup_after_warmup by assumption.
  rewrite searchsorted_left_none_less by assumption. reflexivity.
Qed.

Lemma multistep_warmup_before_milestones_witness :
  warm_up_end default <= 300000 /\
  Forall (fun m => 300000 <= m) (milestones default) /\
  func default 300000 = Ok 1%R.
Proof.
  assert (H : warm_up_end default <= 300000) by (simpl; lia).
  assert (Hall : Forall (fun m => 300000 <= m) (milestones default))
    by (simpl; repeat constructor; lia).
  split; [exact H|]. split; [exact Hall|].
  exact (multistep_warmup_before_milestones default 300000 H Hall).
Defined.

Lemma int_ratio_unit_range step w :
  0 <= step < w -> (0 <= IZR step / IZR w < 1)%R.
Proof.
  intros [H0 Hw].
  assert (Hs : (0 <= IZR step)%R) by (apply IZR_le; lia).
  assert (Hlt : (IZR step < IZR w)%R) by (apply IZR_lt; lia).
  split.
  - apply Rmult_le_pos; [exact Hs|].
    apply Rlt_le, Rinv_0_lt_compat. lra.
  - apply Rmult_lt_reg_r with (IZR w); [lra|].
    unfold Rdiv. rewrite Rmult_assoc, Rinv_l by lra. lra.
Qed.

Lemma pow_unit_range g n : (0 <= g <= 1)%R -> (0 <= g ^ n <= 1)%R.
Proof.
  intros Hg. induction n as [|n IH]; simpl; [lra|]. nra.
Qed.

Lemma pow_antitone g n m :
  (0 <= g <= 1)%R -> (n <= m)%nat -> (g ^ m <= g ^ n)%R.
Proof.
  intros Hg Hnm. induction Hnm as [|m Hnm IH]; [lra|].
  simpl. pose proof (pow_unit_range g m Hg). nra.
Qed.

Lemma count_lt_mono ms s1 s2 :
  s1 <= s2 -> (count_lt ms s1 <= count_lt ms s2)%nat.
Proof.
  intros Hs. unfold count_lt. induction ms as [|m ms IH]; simpl; [lia|].
  destruct (Z.ltb_spec m s1); destruct (Z.ltb_spec m s2); simpl; lia.
Qed.


Lemma Sorted_le_StronglySorted ms :
  Sorted Z.le ms -> StronglySorted Z.le ms.
Proof.
  apply Sorted_StronglySorted. intros x y z. apply Z.le_trans.
Qed.

Lemma multistep_warmup_count_lt config step :
  Sorted Z.le (milestones config) ->
  warm_up_end config <= step ->
  func config step = Ok (gamma config ^ count_lt (milestones config) step)%R.
Proof.
  intros Hsorted Hstep. rewrite multistep_warmup_after_warmup by assumption.
  rewrite searchsorted_left_count; [reflexivity|].
  apply Sorted_le_StronglySorted. exact Hsorted.
Qed.

(** X4: at a step that is not negative the evaluation never raises, for any
    configuration; during the warmup the multiplier is [step / warm_up_end],
    at least 0 and less than 1. *)
Theorem multistep_warmup_no_fault config step :
  0 <= step ->
  (exists r, func config step = Ok r) /\
  (step < warm_up_end config ->
   func config step = Ok (IZR step / IZR (warm_up_end config))%R /\
   (0 <= IZR step / IZR (warm_up_end config) < 1)%R).
Proof.
  intros Hstep.
  assert (Hw : step < warm_up_end config ->
               func config step
               = Ok (IZR step / IZR (warm_up_end config))%R).
  { intros Hlt. unfold func.
    destruct (Z.ltb_spec step (warm_up_end config)); [|lia].
    apply int_truediv_ok. lia. }
  split.
  - destruct (Z.lt_ge_cases step (warm_up_end config)) as [Hlt|Hge].
    + eexists. apply Hw. exact Hlt.
    + eexists. apply multistep_warmup_after_warmup. exact Hge.
  - intros Hlt. split; [apply Hw; exact Hlt|].
    apply int_ratio_unit_range. lia.
Qed.

Lemma multistep_warmup_no_fault_witness :
  0 <= 2500 /\
  2500 < warm_up_end default /\
  func default 2500 = Ok (IZR 2500 / IZR (warm_up_end default))%R.
Proof.
  assert (H0 : 0 <= 2500) by lia.
  assert (Hw : 2500 < warm_up_end default) by (simpl; lia).
  split; [exact H0|]. split; [exact Hw|].
  exact (proj1 (proj2 (multistep_warmup_no_fault default 2500 H0) Hw)).
Defined.

(** X5: with a decay factor between 0 and 1 and sorted milestones, the
    multiplier never increases after the warmup, and it stays between 0
    and 1. *)
Theorem multistep_warmup_decreasing config step1 step2 r1 r2 :
  Sorted Z.le (milestones config) ->
  (0 <= gamma config <= 1)%R ->
  warm_up_end config <= step1 ->
  step1 <= step2 ->
  func config step1 = Ok r1 ->
  func config step2 = Ok r2 ->
  (0 <= r2 <= r1)%R /\ (r1 <= 1)%R.
Proof.
  intros Hsorted Hg Hw Hle H1 H2.
  rewrite multistep_warmup_count_lt in H1, H2 by (assumption || lia).
  injection H1 as <-. injection H2 as <-.
  pose proof (pow_unit_range (gamma config)
                (count_lt (milestones config) step1) Hg).
  pose proof (pow_unit_range (gamma config)
                (count_lt (milestones config) step2) Hg).
  pose proof (pow_antitone (gamma config) _ _ Hg
                (count_lt_mono (milestones config) step1 step2 Hle)).
  lra.
Qed.

Lemma multistep_warmup_decreasing_witness :
  Sorted Z.le (milestones default) /\
  (0 <= gamma default <= 1)%R /\
  warm_up_end default <= 300000 /\
  300000 <= 300001 /\
  func default 300000 = Ok (0.33 ^ 0)%R /\
  func default 300001 = Ok (0.33 ^ 1)%R /\
  (0 <= 0.33 ^ 1 <= 0.33 ^ 0)%R.
Proof.
  assert (Hs : Sorted Z.le (milestones default))
    by (simpl; repeat constructor; lia).
  assert (Hg : (0 <= gamma default <= 1)%R) by (simpl; lra).
  assert (Hw : warm_up_end default <= 300000) by (simpl; lia).
  assert (Hle : 300000 <= 300001) by lia.
  assert (H1 : func default 300000 = Ok (0.33 ^ 0)%R).
  { rewrite multistep_warmup_after_warmup by exact Hw.
    rewrite default_index_300000. reflexivity. }
  assert (H2 : func default 300001 = Ok (0.33 ^ 1)%R).
  { rewrite multistep_warmup_after_warmup by (simpl; lia).
    rewrite default_index_300001. reflexivity. }
  split; [exact Hs|]. split; [exact Hg|]. split; [exact Hw|].
  split; [exact Hle|]. split; [exact H1|]. split; [exact H2|].
  exact (proj1 (multistep_warmup_decreasing default 300000 300001 _ _
                  Hs Hg Hw Hle H1 H2)).
Defined.



End MultiStepWarmupMore.

(** ** MultiStepScheduler, further *)

Section MultiStepMore.

Import MultiStepScheduler.

Lemma count_between_succ ms x :
  0 <= x ->
  count_between ms 0 (x + 1)
  = (count_between ms 0 x + counter ms (x + 1))%nat.
Proof.
  intros Hx. unfold count_between, counter.
  induction ms as [|m ms IH]; simpl; [reflexivity|].
  destruct (Z.eq_dec m (x + 1)); destruct (Z.leb_spec 0 m);
    destruct (Z.leb_spec m (x + 1)); destruct (Z.leb_spec m x);
    simpl; lia.
Qed.

Lemma count_between_zero ms : count_between ms 0 0 = counter ms 0.
Proof.
  unfold count_between, counter.
  induction ms as [|m ms IH]; simpl; [reflexivity|].
  destruct (Z.eq_dec m 0); destruct (Z.leb_spec 0 m);
    destruct (Z.leb_spec m 0); simpl; lia.
Qed.

Lemma count_between_mono ms s1 s2 :
  s1 <= s2 -> (count_between ms 0 s1 <= count_between ms 0 s2)%nat.
Proof.
  intros Hs. unfold count_between.
  induction ms as [|m ms IH]; simpl; [lia|].
  destruct (Z.leb_spec 0 m); destruct (Z.leb_spec m s1);
    destruct (Z.leb_spec m s2); simpl; lia.
Qed.

Lemma MultiStepLR_steps_between base ms g n :
  MultiStepLR_steps base ms g n
  = (base * g ^ count_between ms 0 (Z.of_nat n))%R.
Proof.
  induction n as [|n IH].
  - simpl. rewrite MultiStepLR_get_lr_pow, count_between_zero. reflexivity.
  - cbn [MultiStepLR_steps]. rewrite MultiStepLR_get_lr_pow, IH.
    rewrite Nat2Z.inj_succ, <- Z.add_1_r, count_between_succ by lia.
    rewrite pow_add. ring.
Qed.

Lemma MultiStepLR_between base ms g step :
  0 <= step ->
  MultiStepLR base ms g step = (base * g ^ count_between ms 0 step)%R.
Proof.
  intros Hstep. unfold MultiStepLR.
  rewrite MultiStepLR_steps_between, Z2Nat.id by assumption. reflexivity.
Qed.

(** X7: for any milestones, at every [step >= 0] the rate is the initial
    rate times [gamma] raised to the number of milestones from 0 to [step],
    counted with their repetitions; a negative milestone is never applied. *)
Theorem multistep_closed_form config lr_init step :
  0 <= step ->
  get_scheduler config lr_init step =
  (lr_init * gamma config ^ count_between (milestones config) 0 step)%R.
Proof.
  intros Hstep. unfold get_scheduler. apply MultiStepLR_between.
  exact Hstep.
Qed.

Lemma multistep_closed_form_witness :
  0 <= 750000 /\
  get_scheduler default 1 750000 =
  (1 * gamma default ^ count_between (milestones default) 0 750000)%R.
Proof.
  assert (H : 0 <= 750000) by lia.
  split; [exact H|].
  exact (multistep_closed_form default 1%R 750000 H).
Defined.

Lemma counter_Permutation ms ms' epoch :
  Permutation ms ms' -> counter ms epoch = counter ms' epoch.
Proof.
  intros Hp. unfold counter.
  apply (Permutation_count_occ Z.eq_dec); exact Hp.
Qed.

(** X8: the schedule depends on the milestones as a multiset only: listing
    them in another order gives the same rate at every step. *)
Theorem multistep_order_irrelevant ms ms' g lr_init step :
  Permutation ms ms' ->
  MultiStepLR lr_init ms g step = MultiStepLR lr_init ms' g step.
Proof.
  intros Hp. unfold MultiStepLR.
  induction (Z.to_nat step) as [|n IH].
  - simpl. unfold MultiStepLR_get_lr.
    rewrite (counter_Permutation ms ms' 0 Hp). reflexivity.
  - cbn [MultiStepLR_steps]. rewrite IH. unfold MultiStepLR_get_lr.
    rewrite (counter_Permutation ms ms' _ Hp). reflexivity.
Qed.

Lemma multistep_order_irrelevant_witness :
  Permutation [500000; 750000; 900000]
                          [750000; 500000; 900000] /\
  MultiStepLR 1 [500000; 750000; 900000] 0.33 600000 =
  MultiStepLR 1 [750000; 500000; 900000] 0.33 600000.
Proof.
  assert (Hp : Permutation [500000; 750000; 900000]
                                       [750000; 500000; 900000])
    by apply perm_swap.
  split; [exact Hp|].
  exact (multistep_order_irrelevant _ _ 0.33%R 1%R 600000 Hp).
Defined.

(** X9: with a decay factor between 0 and 1 and an initial rate that is not
    negative, the rate never increases from one step to a later one and
    never exceeds the initial rate. *)
Theorem multistep_decreasing config lr_init step1 step2 :
  (0 <= gamma config <= 1)%R ->
  (0 <= lr_init)%R ->
  0 <= step1 ->
  step1 <= step2 ->
  (0 <= get_scheduler config lr_init step2
     <= get_scheduler config lr_init step1)%R /\
  (get_scheduler config lr_init step1 <= lr_init)%R.
Proof.
  intros Hg Hlr H1 H12. unfold get_scheduler.
  rewrite !MultiStepLR_between by lia.
  pose proof (pow_unit_range (gamma config)
                (count_between (milestones config) 0 step1) Hg).
  pose proof (pow_unit_range (gamma config)
                (count_between (milestones config) 0 step2) Hg).
  pose proof (pow_antitone (gamma config) _ _ Hg
                (count_between_mono (milestones config) step1 step2 H12)).
  nra.
Qed.

Lemma multistep_decreasing_witness :
  (0 <= gamma default <= 1)%R /\
  (0 <= 0.01)%R /\
  0 <= 100 /\
  100 <= 500000 /\
  (get_scheduler default 0.01 500000 <= get_scheduler default 0.01 100)%R.
Proof.
  assert (Hg : (0 <= gamma default <= 1)%R) by (simpl; lra).
  assert (Hlr : (0 <= 0.01)%R) by lra.
  assert (H1 : 0 <= 100) by lia.
  assert (H12 : 100 <= 500000) by lia.
  split; [exact Hg|]. split; [exact Hlr|]. split; [exact H1|].
  split; [exact H12|].
  exact (proj2 (proj1 (multistep_decreasing default 0.01%R 100 500000
                         Hg Hlr H1 H12))).
Defined.

End MultiStepMore.

(** ** ExponentialDecayScheduler, further *)

Section ExponentialDecayMore.

Import ExponentialDecayScheduler.

Lemma clip_inside x : (0 <= x <= 1)%R -> clip x 0 1 = x.
Proof.
  intros Hx. unfold clip, Rmin, Rmax.
  destruct (Rle_dec x 0); destruct (Rle_dec _ 1); lra.
Qed.

Lemma clip_below x : (x <= 0)%R -> clip x 0 1 = 0%R.
Proof.
  intros Hx. unfold clip, Rmin, Rmax.
  destruct (Rle_dec x 0); destruct (Rle_dec _ 1); lra.
Qed.

Lemma float_truediv_ok a b :
  b <> 0%R -> float_truediv a b = Ok (a / b)%R.
Proof.
  intros Hb. unfold float_truediv.
  destruct (Req_EM_T b 0); [contradiction | reflexivity].
Qed.

Lemma float_truediv_zero a : float_truediv a 0 = ZeroDivisionError.
Proof.
  unfold float_truediv. destruct (Req_EM_T 0 0) as [_|H];
    [reflexivity | contradiction H; reflexivity].
Qed.

Lemma IZR_neq_0 z : z <> 0 -> IZR z <> 0%R.
Proof. intros Hz H. apply eq_IZR_R0 in H. contradiction. Qed.

(** The value of the decay branch as a function of the progress. *)
Lemma decay_value_Rpower a b t :
  (0 < a)%R -> (0 < b)%R ->
  (exp (ln a * (1 - t) + ln b * t) / a)%R = Rpower (b / a) t.
Proof.
  intros Ha Hb. unfold Rpower.
  assert (Hia : (0 < / a)%R) by (apply Rinv_0_lt_compat; exact Ha).
  unfold Rdiv at 2. rewrite ln_mult, ln_Rinv by assumption.
  replace (ln b + - ln a)%R with (ln b - ln a)%R by ring.
  replace (ln a * (1 - t) + ln b * t)%R
    with (t * (ln b - ln a) + ln a)%R by ring.
  rewrite exp_plus, exp_ln by assumption. field. lra.
Qed.

(** X10: between [warmup_steps] and [max_steps] the multiplier interpolates
    geometrically: for positive rates it is [lr_final / lr_init] raised to
    the progress [(step - warmup_steps) / (max_steps - warmup_steps)]. *)
Theorem expdecay_geometric config lr_init step :
  warmup_steps config <= step ->
  step <= max_steps config ->
  warmup_steps config < max_steps config ->
  (0 < lr_init)%R ->
  (0 < final_lr config lr_init)%R ->
  func config lr_init step =
  Ok (Rpower (final_lr config lr_init / lr_init)
        (IZR (step - warmup_steps config)
         / IZR (max_steps config - warmup_steps config))).
Proof.
  intros Hw Hm Hwm Ha Hb.
  rewrite expdecay_decay_branch by assumption.
  unfold decay_progress. rewrite int_truediv_ok by lia. cbn [bind].
  f_equal.
  assert (Hd : (0 < IZR (max_steps config - warmup_steps config))%R)
    by (apply IZR_lt; lia).
  assert (Hn0 : (0 <= IZR (step - warmup_steps config))%R)
    by (apply IZR_le; lia).
  assert (Hn1 : (IZR (step - warmup_steps config)
                 <= IZR (max_steps config - warmup_steps config))%R)
    by (apply IZR_le; lia).
  rewrite clip_inside.
  - apply decay_value_Rpower; assumption.
  - split.
    + apply Rmult_le_pos; [exact Hn0|].
      apply Rlt_le, Rinv_0_lt_compat. exact Hd.
    + apply Rmult_le_reg_r
        with (IZR (max_steps config - warmup_steps config)); [exact Hd|].
      unfold Rdiv. rewrite Rmult_assoc, Rinv_l by lra. lra.
Qed.

Lemma expdecay_geometric_witness :
  warmup_steps example_config <= 550 /\
  550 <= max_steps example_config /\
  warmup_steps example_config < max_steps example_config /\
  (0 < 0.01)%R /\
  (0 < final_lr example_config 0.01)%R /\
  func example_config 0.01 550 =
  Ok (Rpower (final_lr example_config 0.01 / 0.01)
        (IZR (550 - warmup_steps example_config)
         / IZR (max_steps example_config - warmup_steps example_config))).
Proof.
  assert (Hw : warmup_steps example_config <= 550) by (simpl; lia).
  assert (Hm : 550 <= max_steps example_config) by (simpl; lia).
  assert (Hwm : warmup_steps example_config < max_steps example_config)
    by (simpl; lia).
  assert (Ha : (0 < 0.01)%R) by lra.
  assert (Hb : (0 < final_lr example_config 0.01)%R)
    by (change (0 < 0.0001)%R; lra).
  split; [exact Hw|]. split; [exact Hm|]. split; [exact Hwm|].
  split; [exact Ha|]. split; [exact Hb|].
  exact (expdecay_geometric example_config 0.01%R 550 Hw Hm Hwm Ha Hb).
Defined.

(** X11: the decay starts from the initial rate: with [max_steps] different
    from [warmup_steps] the progress at [step = warmup_steps] is 0, and for
    positive initial and final rates the multiplier there is, in exact
    arithmetic, 1. *)
Theorem expdecay_starts_at_one config lr_init :
  warmup_steps config <> max_steps config ->
  (0 < lr_init)%R ->
  (0 < final_lr config lr_init)%R ->
  decay_progress config (warmup_steps config) = Ok 0%R /\
  func config lr_init (warmup_steps config) = Ok 1%R.
Proof.
  intros Hwm Ha Hb.
  assert (Hp : decay_progress config (warmup_steps config) = Ok 0%R).
  { unfold decay_progress. rewrite int_truediv_ok by lia. cbn [bind].
    f_equal. rewrite Z.sub_diag.
    replace (0 / IZR (max_steps config - warmup_steps config))%R with 0%R
      by (unfold Rdiv; ring).
    apply clip_inside. lra. }
  split; [exact Hp|].
  rewrite expdecay_decay_branch by lia. rewrite Hp. cbn [bind]. f_equal.
  replace (ln lr_init * (1 - 0) + ln (final_lr config lr_init) * 0)%R
    with (ln lr_init) by ring.
  rewrite exp_ln by assumption. field. lra.
Qed.

Lemma expdecay_starts_at_one_witness :
  warmup_steps example_config <> max_steps example_config /\
  (0 < 0.01)%R /\
  (0 < final_lr example_config 0.01)%R /\
  decay_progress example_config (warmup_steps example_config) = Ok 0%R /\
  func example_config 0.01 (warmup_steps example_config) = Ok 1%R.
Proof.
  assert (Hwm : warmup_steps example_config <> max_steps example_config)
    by (simpl; lia).
  assert (Ha : (0 < 0.01)%R) by lra.
  assert (Hb : (0 < final_lr example_config 0.01)%R)
    by (change (0 < 0.0001)%R; lra).
  split; [exact Hwm|]. split; [exact Ha|]. split; [exact Hb|].
  exact (expdecay_starts_at_one example_config 0.01%R Hwm Ha Hb).
Defined.

(** X12: an inverted range does not raise.  When [max_steps] is less than
    [warmup_steps], at every step of the decay phase the evaluation returns
    a value and the progress is clamped to 0; for positive initial and final
    rates the multiplier is, in exact arithmetic, 1: the rate never
    decays. *)
Theorem expdecay_inverted_range_flat config lr_init step :
  max_steps config < warmup_steps config ->
  warmup_steps config <= step ->
  decay_progress config step = Ok 0%R /\
  (exists r, func config lr_init step = Ok r) /\
  ((0 < lr_init)%R -> (0 < final_lr config lr_init)%R ->
   func config lr_init step = Ok 1%R).
Proof.
  intros Hwm Hw.
  assert (Hp : decay_progress config step = Ok 0%R).
  { unfold decay_progress. rewrite int_truediv_ok by lia. cbn [bind].
    f_equal. apply clip_below.
    assert (Hd : (IZR (max_steps config - warmup_steps config) < 0)%R)
      by (apply IZR_lt; lia).
    assert (Hn : (0 <= IZR (step - warmup_steps config))%R)
      by (apply IZR_le; lia).
    unfold Rdiv.
    assert (Hi : (/ IZR (max_steps config - warmup_steps config) < 0)%R)
      by (apply Rinv_lt_0_compat; exact Hd).
    nra. }
  split; [exact Hp|]. split.
  - rewrite expdecay_decay_branch by assumption. rewrite Hp. cbn [bind].
    eexists. reflexivity.
  - intros Ha Hb.
    rewrite expdecay_decay_branch by assumption. rewrite Hp. cbn [bind].
    f_equal.
    replace (ln lr_init * (1 - 0) + ln (final_lr config lr_init) * 0)%R
      with (ln lr_init) by ring.
    rewrite exp_ln by assumption. field. lra.
Qed.

Lemma expdecay_inverted_range_flat_witness :
  max_steps inverted_config < warmup_steps inverted_config /\
  warmup_steps inverted_config <= 5000 /\
  (0 < 0.01)%R /\
  (0 < final_lr inverted_config 0.01)%R /\
  decay_progress inverted_config 5000 = Ok 0%R /\
  func inverted_config 0.01 5000 = Ok 1%R.
Proof.
  assert (Hwm : max_steps inverted_config < warmup_steps inverted_config)
    by (simpl; lia).
  assert (Hw : warmup_steps inverted_config <= 5000) by (simpl; lia).
  assert (Ha : (0 < 0.01)%R) by lra.
  assert (Hb : (0 < final_lr inverted_config 0.01)%R)
    by (change (0 < 0.0001)%R; lra).
  split; [exact Hwm|]. split; [exact Hw|]. split; [exact Ha|].
  split; [exact Hb|].
  pose proof (expdecay_inverted_range_flat inverted_config 0.01%R 5000
                Hwm Hw) as [Hp [_ Hv]].
  split; [exact Hp | exact (Hv Ha Hb)].
Defined.

Lemma int_ratio_mono a b d :
  0 < d -> a <= b -> (IZR a / IZR d <= IZR b / IZR d)%R.
Proof.
  intros Hd Hab.
  assert (Hd' : (0 < / IZR d)%R)
    by (apply Rinv_0_lt_compat, IZR_lt; exact Hd).
  assert (Hab' : (IZR a <= IZR b)%R) by (apply IZR_le; exact Hab).
  unfold Rdiv. nra.
Qed.

Lemma expdecay_warmup_branch_linear config lr_init step :
  ramp config = linear ->
  step < warmup_steps config ->
  func config lr_init step =
  (r <- float_truediv ((lr_init - lr_pre_warmup config) * IZR step)%R
                      (IZR (warmup_steps config)) ;;
   float_truediv (lr_pre_warmup config + r)%R lr_init).
Proof.
  intros Hr Hstep. unfold func, in_warmup.
  destruct (Z.ltb_spec step (warmup_steps config)); [|lia].
  rewrite Hr. reflexivity.
Qed.

Lemma expdecay_warmup_branch_cosine config lr_init step :
  ramp config = cosine ->
  step < warmup_steps config ->
  func config lr_init step =
  (t <- int_truediv step (warmup_steps config) ;;
   Ok ((lr_pre_warmup config
        + (lr_init - lr_pre_warmup config) * sin (0.5 * PI * clip t 0 1))
       / lr_init)%R).
Proof.
  intros Hr Hstep. unfold func, in_warmup.
  destruct (Z.ltb_spec step (warmup_steps config)); [|lia].
  rewrite Hr. reflexivity.
Qed.

Lemma ratio_between p n a :
  (0 < a)%R -> (p <= n <= a)%R -> (p / a <= n / a <= 1)%R.
Proof.
  intros Ha [Hp Hn].
  assert (Hi : (0 <= / a)%R) by (apply Rlt_le, Rinv_0_lt_compat; exact Ha).
  unfold Rdiv. split.
  - apply Rmult_le_compat_r; assumption.
  - rewrite <- (Rinv_r a) by lra. apply Rmult_le_compat_r; assumption.
Qed.

(** X14: the linear ramp.  For [0 <= step < warmup_steps] the multiplier is
    [(lr_pre_warmup + (lr_init - lr_pre_warmup) * step / warmup_steps)
    / lr_init] when the initial rate is not zero, and the evaluation raises
    [ZeroDivisionError] when it is zero; for [lr_pre_warmup <= lr_init] and a
    positive [lr_init] the multiplier lies between
    [lr_pre_warmup / lr_init] and 1. *)
Theorem expdecay_linear_warmup config lr_init step :
  ramp config = linear ->
  0 <= step < warmup_steps config ->
  (lr_init <> 0%R ->
   func config lr_init step =
   Ok ((lr_pre_warmup config
        + (lr_init - lr_pre_warmup config) * IZR step
          / IZR (warmup_steps config)) / lr_init)%R) /\
  (lr_init = 0%R -> func config lr_init step = ZeroDivisionError) /\
  ((0 < lr_init)%R -> (lr_pre_warmup config <= lr_init)%R ->
   (lr_pre_warmup config / lr_init
    <= (lr_pre_warmup config
        + (lr_init - lr_pre_warmup config) * IZR step
          / IZR (warmup_steps config)) / lr_init
    <= 1)%R).
Proof.
  intros Hr Hstep.
  assert (Hw : IZR (warmup_steps config) <> 0%R)
    by (apply IZR_neq_0; lia).
  split; [|split].
  - intros Ha. rewrite expdecay_warmup_branch_linear by (assumption || lia).
    rewrite float_truediv_ok by exact Hw. cbn [bind].
    apply float_truediv_ok. exact Ha.
  - intros Ha. rewrite expdecay_warmup_branch_linear by (assumption || lia).
    rewrite float_truediv_ok by exact Hw. cbn [bind].
    rewrite Ha. apply float_truediv_zero.
  - intros Ha Hp.
    pose proof (int_ratio_unit_range step (warmup_steps config) Hstep)
      as Hx.
    set (x := (IZR step / IZR (warmup_steps config))%R) in *.
    replace ((lr_init - lr_pre_warmup config) * IZR step
             / IZR (warmup_steps config))%R
      with ((lr_init - lr_pre_warmup config) * x)%R
      by (unfold x, Rdiv; ring).
    assert (Hn : (lr_pre_warmup config
                  <= lr_pre_warmup config
                     + (lr_init - lr_pre_warmup config) * x
                  <= lr_init)%R) by nra.
    apply ratio_between; assumption.
Qed.

Lemma expdecay_linear_warmup_witness :
  ramp example_config = linear /\
  0 <= 50 < warmup_steps example_config /\
  0.01%R <> 0%R /\
  func example_config 0.01 50 =
  Ok ((lr_pre_warmup example_config
       + (0.01 - lr_pre_warmup example_config) * IZR 50
         / IZR (warmup_steps example_config)) / 0.01)%R.
Proof.
  assert (Hr : ramp example_config = linear) by reflexivity.
  assert (Hs : 0 <= 50 < warmup_steps example_config) by (simpl; lia).
  assert (Ha : 0.01%R <> 0%R) by lra.
  split; [exact Hr|]. split; [exact Hs|]. split; [exact Ha|].
  exact (proj1 (expdecay_linear_warmup example_config 0.01%R 50 Hr Hs) Ha).
Defined.

(** X15: the cosine ramp.  For [0 <= step < warmup_steps] the evaluation does
    not raise and the multiplier is [(lr_pre_warmup + (lr_init -
    lr_pre_warmup) * sin (pi / 2 * step / warmup_steps)) / lr_init], the
    clamp leaving the ratio as it is; for [lr_pre_warmup <= lr_init] and a
    positive [lr_init] it lies between [lr_pre_warmup / lr_init] and 1. *)
Theorem expdecay_cosine_warmup config lr_init step :
  ramp config = cosine ->
  0 <= step < warmup_steps config ->
  func config lr_init step =
  Ok ((lr_pre_warmup config
       + (lr_init - lr_pre_warmup config)
         * sin (0.5 * PI * (IZR step / IZR (warmup_steps config))))
      / lr_init)%R /\
  ((0 < lr_init)%R -> (lr_pre_warmup config <= lr_init)%R ->
   (lr_pre_warmup config / lr_init
    <= (lr_pre_warmup config
        + (lr_init - lr_pre_warmup config)
          * sin (0.5 * PI * (IZR step / IZR (warmup_steps config))))
       / lr_init
    <= 1)%R).
Proof.
  intros Hr Hstep.
  pose proof (int_ratio_unit_range step (warmup_steps config) Hstep) as Hx.
  split.
  - rewrite expdecay_warmup_branch_cosine by (assumption || lia).
    rewrite int_truediv_ok by lia. cbn [bind].
    rewrite clip_inside by lra. reflexivity.
  - intros Ha Hp.
    set (x := (IZR step / IZR (warmup_steps config))%R) in *.
    assert (Hsin : (0 <= sin (0.5 * PI * x) <= 1)%R).
    { pose proof PI_RGT_0 as Hpi. split.
      - apply sin_ge_0; nra.
      - apply SIN_bound. }
    assert (Hn : (lr_pre_warmup config
                  <= lr_pre_warmup config
                     + (lr_init - lr_pre_warmup config)
                       * sin (0.5 * PI * x)
                  <= lr_init)%R) by nra.
    apply ratio_between; assumption.
Qed.

Lemma expdecay_cosine_warmup_witness :
  ramp inverted_config = cosine /\
  0 <= 500 < warmup_steps inverted_config /\
  func inverted_config 0.01 500 =
  Ok ((lr_pre_warmup inverted_config
       + (0.01 - lr_pre_warmup inverted_config)
         * sin (0.5 * PI * (IZR 500 / IZR (warmup_steps inverted_config))))
      / 0.01)%R.
Proof.
  assert (Hr : ramp inverted_config = cosine) by reflexivity.
  assert (Hs : 0 <= 500 < warmup_steps inverted_config) by (simpl; lia).
  split; [exact Hr|]. split; [exact Hs|].
  exact (proj1 (expdecay_cosine_warmup inverted_config 0.01%R 500 Hr Hs)).
Defined.

(** X16: both ramps start from [lr_pre_warmup]: with a warmup of at least
    one step and an initial rate that is not zero, the multiplier at step 0
    is [lr_pre_warmup / lr_init]. *)
Theorem expdecay_warmup_starts_at_pre config lr_init :
  0 < warmup_steps config ->
  lr_init <> 0%R ->
  func config lr_init 0 = Ok (lr_pre_warmup config / lr_init)%R.
Proof.
  intros Hw Ha. destruct (ramp config) eqn:Hr.
  - rewrite expdecay_warmup_branch_linear by assumption.
    rewrite float_truediv_ok by (apply IZR_neq_0; lia). cbn [bind].
    rewrite float_truediv_ok by exact Ha. do 2 f_equal.
    unfold Rdiv. ring.
  - rewrite expdecay_warmup_branch_cosine by assumption.
    rewrite int_truediv_ok by lia. cbn [bind]. do 2 f_equal.
    replace (0 / IZR (warmup_steps config))%R with 0%R
      by (unfold Rdiv; ring).
    rewrite clip_inside by lra.
    replace (0.5 * PI * 0)%R with 0%R by ring.
    rewrite sin_0. ring.
Qed.

Lemma expdecay_warmup_starts_at_pre_witness :
  0 < warmup_steps example_config /\
  0.01%R <> 0%R /\
  func example_config 0.01 0 = Ok (lr_pre_warmup example_config / 0.01)%R.
Proof.
  assert (Hw : 0 < warmup_steps example_config) by (simpl; lia).
  assert (Ha : 0.01%R <> 0%R) by lra.
  split; [exact Hw|]. split; [exact Ha|].
  exact (expdecay_warmup_starts_at_pre example_config 0.01%R Hw Ha).
Defined.

(** X17: the evaluation raises [ZeroDivisionError] in these cases and no
    other: in the warmup branch when [warmup_steps] is zero (a negative
    step) or, for the linear ramp, when the initial rate is zero; in the
    decay branch when [max_steps] equals [warmup_steps]. *)
Theorem expdecay_fault_cases config lr_init step :
  func config lr_init step = ZeroDivisionError <->
  (step < warmup_steps config /\
   (warmup_steps config = 0 \/ (ramp config = linear /\ lr_init = 0%R))) \/
  (warmup_steps config <= step /\ max_steps config = warmup_steps config).
Proof.
  destruct (Z.lt_ge_cases step (warmup_steps config)) as [Hlt|Hge].
  - destruct (ramp config) eqn:Hr.
    + rewrite expdecay_warmup_branch_linear by assumption.
      destruct (Z.eq_dec (warmup_steps config) 0) as [Hw|Hw].
      * replace (IZR (warmup_steps config)) with 0%R
          by (rewrite Hw; reflexivity).
        rewrite float_truediv_zero. cbn [bind].
        split; [intros _; left; auto | reflexivity].
      * rewrite float_truediv_ok by (apply IZR_neq_0; exact Hw).
        cbn [bind]. unfold float_truediv.
        destruct (Req_EM_T lr_init 0) as [Ha|Ha].
        -- split; [intros _; left; auto | reflexivity].
        -- split; [discriminate|].
           intros [[_ [H|[_ H]]]|[H _]]; (contradiction || lia).
    + rewrite expdecay_warmup_branch_cosine by assumption.
      unfold int_truediv.
      destruct (Z.eqb_spec (warmup_steps config) 0) as [Hw|Hw]; cbn [bind].
      * split; [intros _; left; auto | reflexivity].
      * split; [discriminate|].
        intros [[_ [H|[H _]]]|[H _]]; (contradiction || discriminate || lia).
  - rewrite expdecay_decay_branch by assumption.
    unfold decay_progress, int_truediv.
    destruct (Z.eqb_spec (max_steps config - warmup_steps config) 0)
      as [Hd|Hd]; cbn [bind].
    + split; [intros _; right; split; lia | reflexivity].
    + split; [discriminate|].
      intros [[H _]|[_ H]]; lia.
Qed.

End ExponentialDecayMore.

(** ** CosineDecayScheduler and NeuSScheduler, further *)

Section CosineDecayMore.

Import CosineDecayScheduler.

Lemma cosine_decay_branch config step :
  warm_up_end config <= step ->
  max_steps config <> warm_up_end config ->
  func config step =
  Ok ((cos (PI * (IZR (step - warm_up_end config)
                  / IZR (max_steps config - warm_up_end config))) + 1.0)
      * 0.5 * (1 - learning_rate_alpha config)
      + learning_rate_alpha config)%R.
Proof.
  intros Hstep Hm. unfold func.
  destruct (Z.ltb_spec step (warm_up_end config)); [lia|].
  rewrite int_truediv_ok by lia. reflexivity.
Qed.

Lemma cosine_warmup_branch config step :
  0 <= step < warm_up_end config ->
  func config step = Ok (IZR step / IZR (warm_up_end config))%R.
Proof.
  intros Hstep. unfold func.
  destruct (Z.ltb_spec step (warm_up_end config)); [|lia].
  apply int_truediv_ok. lia.
Qed.

Lemma cosine_endpoints_values config :
  warm_up_end config < max_steps config ->
  func config (warm_up_end config) = Ok 1%R /\
  func config (max_steps config) = Ok (learning_rate_alpha config).
Proof.
  intros Hwm.
  assert (Hd : IZR (max_steps config - warm_up_end config) <> 0%R)
    by (apply IZR_neq_0; lia).
  split.
  - rewrite cosine_decay_branch by lia. f_equal.
    rewrite Z.sub_diag.
    replace (PI * (0 / IZR (max_steps config - warm_up_end config)))%R
      with 0%R by (unfold Rdiv; ring).
    rewrite cos_0. lra.
  - rewrite cosine_decay_branch by lia. f_equal.
    replace (PI * (IZR (max_steps config - warm_up_end config)
                   / IZR (max_steps config - warm_up_end config)))%R
      with PI by (field; exact Hd).
    rewrite cos_PI. lra.
Qed.

(** X18: the decay runs from 1 to alpha: for [warm_up_end < max_steps] the
    multiplier is 1 at [step = warm_up_end] and [learning_rate_alpha] at
    [step = max_steps], for any configuration values. *)
Theorem cosine_endpoints config :
  warm_up_end config < max_steps config ->
  func config (warm_up_end config) = Ok 1%R /\
  func config (max_steps config) = Ok (learning_rate_alpha config).
Proof. exact (cosine_endpoints_values config). Qed.

Lemma cosine_endpoints_witness :
  warm_up_end default < max_steps default /\
  func default (warm_up_end default) = Ok 1%R /\
  func default (max_steps default) = Ok (learning_rate_alpha default).
Proof.
  assert (H : warm_up_end default < max_steps default) by (simpl; lia).
  split; [exact H|].
  exact (cosine_endpoints default H).
Defined.

(** X19: with alpha between 0 and 1 and [max_steps] different from
    [warm_up_end], at every [step >= 0] the evaluation returns a multiplier
    between 0 and 1, and not below alpha once the warmup is over, also past
    [max_steps]. *)
Theorem cosine_bounds config step :
  (0 <= learning_rate_alpha config <= 1)%R ->
  max_steps config <> warm_up_end config ->
  0 <= step ->
  exists r,
    func config step = Ok r /\
    (0 <= r <= 1)%R /\
    (warm_up_end config <= step -> (learning_rate_alpha config <= r)%R).
Proof.
  intros Ha Hm Hstep.
  destruct (Z.lt_ge_cases step (warm_up_end config)) as [Hlt|Hge].
  - eexists. split; [apply cosine_warmup_branch; lia|].
    pose proof (int_ratio_unit_range step (warm_up_end config)
                  ltac:(lia)).
    split; [lra | lia].
  - eexists. split; [apply cosine_decay_branch; assumption|].
    pose proof (COS_bound
                  (PI * (IZR (step - warm_up_end config)
                         / IZR (max_steps config - warm_up_end config))))
      as [Hc1 Hc2].
    split; [split|intros _]; nra.
Qed.

Lemma cosine_bounds_witness :
  (0 <= learning_rate_alpha default <= 1)%R /\
  max_steps default <> warm_up_end default /\
  0 <= 400000 /\
  exists r,
    func default 400000 = Ok r /\
    (0 <= r <= 1)%R /\
    (warm_up_end default <= 400000 -> (learning_rate_alpha default <= r)%R).
Proof.
  assert (Ha : (0 <= learning_rate_alpha default <= 1)%R) by (simpl; lra).
  assert (Hm : max_steps default <> warm_up_end default) by (simpl; lia).
  assert (Hs : 0 <= 400000) by lia.
  split; [exact Ha|]. split; [exact Hm|]. split; [exact Hs|].
  exact (cosine_bounds default 400000 Ha Hm Hs).
Defined.



(** X21: with alpha at most 1 the multiplier never increases from
    [warm_up_end] to [max_steps]. *)
Theorem cosine_decreasing config step1 step2 r1 r2 :
  (learning_rate_alpha config <= 1)%R ->
  warm_up_end config <= step1 ->
  step1 <= step2 ->
  step2 <= max_steps config ->
  warm_up_end config < max_steps config ->
  func config step1 = Ok r1 ->
  func config step2 = Ok r2 ->
  (r2 <= r1)%R.
Proof.
  intros Ha Hw H12 Hm Hwm H1 H2.
  rewrite cosine_decay_branch in H1, H2 by lia.
  injection H1 as <-. injection H2 as <-.
  set (d := max_steps config - warm_up_end config).
  assert (Hx1 : (0 <= IZR (step1 - warm_up_end config) / IZR d <= 1)%R).
  { split.
    - pose proof (int_ratio_mono 0 (step1 - warm_up_end config) d) as H.
      unfold Rdiv at 1 in H. rewrite Rmult_0_l in H.
      apply H; unfold d; lia.
    - pose proof (int_ratio_mono (step1 - warm_up_end config) d d) as H.
      replace (IZR d / IZR d)%R with 1%R in H
        by (field; apply IZR_neq_0; unfold d; lia).
      apply H; unfold d; lia. }
  assert (Hx2 : (IZR (step2 - warm_up_end config) / IZR d <= 1)%R).
  { pose proof (int_ratio_mono (step2 - warm_up_end config) d d) as H.
    replace (IZR d / IZR d)%R with 1%R in H
      by (field; apply IZR_neq_0; unfold d; lia).
    apply H; unfold d; lia. }
  assert (Hx12 : (IZR (step1 - warm_up_end config) / IZR d
                  <= IZR (step2 - warm_up_end config) / IZR d)%R)
    by (apply int_ratio_mono; unfold d; lia).
  pose proof PI_RGT_0 as Hpi.
  assert (Hcos : (cos (PI * (IZR (step2 - warm_up_end config) / IZR d))
                  <= cos (PI * (IZR (step1 - warm_up_end config)
                                / IZR d)))%R).
  { apply cos_decr_1; nra. }
  nra.
Qed.

Lemma cosine_decreasing_witness :
  (learning_rate_alpha default <= 1)%R /\
  warm_up_end default <= 5000 /\
  5000 <= 300000 /\
  300000 <= max_steps default /\
  warm_up_end default < max_steps default /\
  func default 5000 = Ok 1%R /\
  func default 300000 = Ok (learning_rate_alpha default) /\
  (learning_rate_alpha default <= 1)%R.
Proof.
  assert (Ha : (learning_rate_alpha default <= 1)%R) by (simpl; lra).
  assert (Hw : warm_up_end default <= 5000) by (simpl; lia).
  assert (H12 : 5000 <= 300000) by lia.
  assert (Hm : 300000 <= max_steps default) by (simpl; lia).
  assert (Hwm : warm_up_end default < max_steps default) by (simpl; lia).
  pose proof (cosine_endpoints_values default Hwm) as [H1 H2].
  split; [exact Ha|]. split; [exact Hw|]. split; [exact H12|].
  split; [exact Hm|]. split; [exact Hwm|]. split; [exact H1|].
  split; [exact H2|].
  exact (cosine_decreasing default 5000 300000 _ _ Ha Hw H12 Hm Hwm H1 H2).
Defined.

(** X22: the evaluation raises [ZeroDivisionError] at a negative step when
    [warm_up_end] is zero, after the warmup when [max_steps] equals
    [warm_up_end], and in no other case. *)
Theorem cosine_fault_cases config step :
  func config step = ZeroDivisionError <->
  (step < warm_up_end config /\ warm_up_end config = 0) \/
  (warm_up_end config <= step /\ max_steps config = warm_up_end config).
Proof.
  unfold func, int_truediv.
  destruct (Z.ltb_spec step (warm_up_end config)) as [Hlt|Hge].
  - destruct (Z.eqb_spec (warm_up_end config) 0) as [Hw|Hw].
    + split; [intros _; left; auto | reflexivity].
    + split; [discriminate|]. intros [[_ H]|[H _]]; lia.
  - destruct (Z.eqb_spec (max_steps config - warm_up_end config) 0)
      as [Hd|Hd]; cbn [bind].
    + split; [intros _; right; split; lia | reflexivity].
    + split; [discriminate|]. intros [[H _]|[_ H]]; lia.
Qed.

End CosineDecayMore.

Section NeuSMore.

Import NeuSScheduler.

Lemma neus_func_cosine w alpha m step :
  func w alpha m step
  = CosineDecayScheduler.func (CosineDecayScheduler.cosine_config w alpha m)
      step.
Proof.
  unfold func, CosineDecayScheduler.func, CosineDecayScheduler.cosine_config.
  cbn [CosineDecayScheduler.warm_up_end
       CosineDecayScheduler.learning_rate_alpha
       CosineDecayScheduler.max_steps].
  destruct (step <? w); reflexivity.
Qed.

(** X23: the scheduler [NeuSSchedulerConfig.setup] builds runs from the base
    rate to alpha times the base rate: for [warm_up_end < max_steps] the rate
    is [lr_init] at [step = warm_up_end] and [lr_init * learning_rate_alpha]
    at [step = max_steps]. *)
Theorem neus_setup_endpoints config lr_init :
  warm_up_end config < max_steps config ->
  setup config lr_init (warm_up_end config) = Ok lr_init /\
  setup config lr_init (max_steps config)
  = Ok (lr_init * learning_rate_alpha config)%R.
Proof.
  intros Hwm. unfold setup, LambdaLR. rewrite !neus_func_cosine.
  destruct (cosine_endpoints_values
              (CosineDecayScheduler.cosine_config (warm_up_end config)
                 (learning_rate_alpha config) (max_steps config)) Hwm)
    as [H1 H2].
  cbn [CosineDecayScheduler.cosine_config
       CosineDecayScheduler.warm_up_end
       CosineDecayScheduler.learning_rate_alpha
       CosineDecayScheduler.max_steps] in H1, H2.
  rewrite H1, H2. cbn [bind]. split; [f_equal; ring | reflexivity].
Qed.

Lemma neus_setup_endpoints_witness :
  warm_up_end default < max_steps default /\
  setup default 0.01 (warm_up_end default) = Ok 0.01%R /\
  setup default 0.01 (max_steps default)
  = Ok (0.01 * learning_rate_alpha default)%R.
Proof.
  assert (H : warm_up_end default < max_steps default) by (simpl; lia).
  split; [exact H|].
  exact (neus_setup_endpoints default 0.01%R H).
Defined.

End NeuSMore.

(** ** ExponentialSchedulerConfig, further *)

Section ExponentialMore.

Import ExponentialScheduler.

Lemma ratio_nonzero_steps config :
  (0 < decay_rate config)%R ->
  max_steps config <> 0 ->
  ratio config =
  Ok (Rpower (decay_rate config) (1 / IZR (max_steps config))).
Proof.
  intros Hd Hm. unfold ratio.
  rewrite float_truediv_ok by (apply IZR_neq_0; exact Hm). cbn [bind].
  unfold float_pow.
  destruct (Rlt_dec 0 (decay_rate config)); [|contradiction].
  do 2 f_equal. lra.
Qed.

(** X24: for a positive [decay_rate] and [max_steps] other than 0, the rate
    at every [step >= 0] is the initial rate times [decay_rate] to the power
    [step / max_steps]. *)
Theorem exponential_closed_form config lr_init :
  (0 < decay_rate config)%R ->
  max_steps config <> 0 ->
  exists scheduler,
    setup config lr_init = Ok scheduler /\
    forall step, 0 <= step ->
      scheduler step =
      (lr_init
       * Rpower (decay_rate config) (IZR step / IZR (max_steps config)))%R.
Proof.
  intros Hd Hm. eexists. split.
  - unfold setup. rewrite ratio_nonzero_steps by assumption. cbn [bind].
    reflexivity.
  - intros step Hstep. unfold ExponentialLR.
    rewrite ExponentialLR_steps_Rpower by assumption.
    rewrite INR_IZR_INZ, Z2Nat.id by assumption.
    do 2 f_equal. unfold Rdiv. ring.
Qed.

Lemma exponential_closed_form_witness :
  (0 < decay_rate default)%R /\
  max_steps default <> 0 /\
  exists scheduler,
    setup default 0.01 = Ok scheduler /\
    forall step, 0 <= step ->
      scheduler step =
      (0.01 * Rpower (decay_rate default)
                (IZR step / IZR (max_steps default)))%R.
Proof.
  assert (Hd : (0 < decay_rate default)%R) by (simpl; lra).
  assert (Hm : max_steps default <> 0) by (simpl; lia).
  split; [exact Hd|]. split; [exact Hm|].
  exact (exponential_closed_form default 0.01%R Hd Hm).
Defined.

(** X25: for a [decay_rate] that is not negative, [setup] raises
    [ZeroDivisionError] when [max_steps] is 0 and when a zero [decay_rate]
    meets a negative [max_steps], and in no other case. *)
Theorem exponential_setup_fault_cases config lr_init :
  (0 <= decay_rate config)%R ->
  (setup config lr_init = ZeroDivisionError <->
   max_steps config = 0 \/
   (decay_rate config = 0%R /\ max_steps config < 0)).
Proof.
  intros Hd. unfold setup, ratio.
  destruct (Z.eq_dec (max_steps config) 0) as [Hm|Hm].
  - replace (IZR (max_steps config)) with 0%R by (rewrite Hm; reflexivity).
    rewrite float_truediv_zero. cbn [bind].
    split; [intros _; left; exact Hm | reflexivity].
  - rewrite float_truediv_ok by (apply IZR_neq_0; exact Hm). cbn [bind].
    unfold float_pow.
    destruct (Rlt_dec 0 (decay_rate config)) as [Hpos|Hnpos]; cbn [bind].
    + split; [discriminate|]. intros [H|[H _]]; [contradiction | lra].
    + assert (Hz : decay_rate config = 0%R) by lra.
      assert (Hsign : (1.0 / IZR (max_steps config) < 0)%R
                      <-> max_steps config < 0).
      { split.
        - intros Hneg. apply lt_IZR.
          destruct (Rlt_dec (IZR (max_steps config)) 0) as [Hlt|Hge];
            [exact Hlt|].
          assert (Hp : (0 < IZR (max_steps config))%R).
          { assert (IZR (max_steps config) <> 0%R)
              by (apply IZR_neq_0; exact Hm). lra. }
          apply Rinv_0_lt_compat in Hp. unfold Rdiv in Hneg. lra.
        - intros Hneg. apply IZR_lt in Hneg.
          apply Rinv_lt_0_compat in Hneg. unfold Rdiv. lra. }
      destruct (Rlt_dec (1.0 / IZR (max_steps config)) 0) as [Hneg|Hnn];
        cbn [bind].
      * split; [intros _; right; split; [exact Hz | apply Hsign; exact Hneg]
               | reflexivity].
      * destruct (Req_EM_T (1.0 / IZR (max_steps config)) 0);
          cbn [bind]; (split; [discriminate|]);
          intros [H|[_ H]]; try contradiction;
          apply Hsign in H; contradiction.
Qed.

Lemma exponential_setup_fault_cases_witness :
  (0 <= decay_rate {| decay_rate := 0.1; max_steps := 0 |})%R /\
  setup {| decay_rate := 0.1; max_steps := 0 |} 0.01 = ZeroDivisionError.
Proof.
  assert (Hd : (0 <= decay_rate {| decay_rate := 0.1; max_steps := 0 |})%R)
    by (simpl; lra).
  split; [exact Hd|].
  apply (proj2 (exponential_setup_fault_cases
                  {| decay_rate := 0.1; max_steps := 0 |} 0.01%R Hd)).
  left. reflexivity.
Defined.

(** X26: for a [decay_rate] in (0, 1], a positive [max_steps] and an initial
    rate that is not negative, the rate never increases from a step to the
    next and never exceeds the initial rate. *)
Theorem exponential_decreasing config lr_init :
  (0 < decay_rate config <= 1)%R ->
  0 < max_steps config ->
  (0 <= lr_init)%R ->
  exists scheduler,
    setup config lr_init = Ok scheduler /\
    forall step, 0 <= step ->
      (0 <= scheduler (step + 1)%Z <= scheduler step)%R /\
      (scheduler step <= lr_init)%R.
Proof.
  intros Hd Hm Hlr. eexists. split.
  - unfold setup. rewrite ratio_nonzero_steps by (lra || lia). cbn [bind].
    reflexivity.
  - set (g := Rpower (decay_rate config) (1 / IZR (max_steps config))).
    assert (Hg : (0 < g <= 1)%R).
    { split; [apply exp_pos|].
      assert (Hm' : (0 < IZR (max_steps config))%R)
        by (apply IZR_lt; exact Hm).
      assert (Hln : (ln (decay_rate config) <= 0)%R).
      { rewrite <- ln_1. destruct (proj2 Hd) as [Hlt|Heq].
        - left. apply ln_increasing; lra.
        - rewrite Heq. lra. }
      assert (Harg : (1 / IZR (max_steps config)
                      * ln (decay_rate config) <= 0)%R).
      { assert (0 < 1 / IZR (max_steps config))%R
          by (unfold Rdiv; rewrite Rmult_1_l;
              apply Rinv_0_lt_compat; exact Hm').
        nra. }
      assert (Hexp : (exp (1 / IZR (max_steps config)
                           * ln (decay_rate config)) <= exp 0)%R).
      { destruct Harg as [Hlt|Heq];
          [left; apply exp_increasing; exact Hlt | rewrite Heq; lra]. }
      rewrite exp_0 in Hexp. exact Hexp. }
    assert (Hsteps : forall n,
               (0 <= ExponentialLR_steps lr_init g (S n)
                  <= ExponentialLR_steps lr_init g n)%R /\
               (ExponentialLR_steps lr_init g n <= lr_init)%R).
    { induction n as [|n [[IH0 IH1] IH2]].
      - cbn [ExponentialLR_steps]. nra.
      - cbn [ExponentialLR_steps] in *. nra. }
    intros step Hstep. unfold ExponentialLR.
    replace (Z.to_nat (step + 1)) with (S (Z.to_nat step)) by lia.
    apply Hsteps.
Qed.

Lemma exponential_decreasing_witness :
  (0 < decay_rate default <= 1)%R /\
  0 < max_steps default /\
  (0 <= 0.01)%R /\
  exists scheduler,
    setup default 0.01 = Ok scheduler /\
    forall step, 0 <= step ->
      (0 <= scheduler (step + 1)%Z <= scheduler step)%R /\
      (scheduler step <= 0.01)%R.
Proof.
  assert (Hd : (0 < decay_rate default <= 1)%R) by (simpl; lra).
  assert (Hm : 0 < max_steps default) by (simpl; lia).
  assert (Hlr : (0 <= 0.01)%R) by lra.
  split; [exact Hd|]. split; [exact Hm|]. split; [exact Hlr|].
  exact (exponential_decreasing default 0.01%R Hd Hm Hlr).
Defined.

End ExponentialMore.
